(** * Simulation drivers of the MLow codec IP

    A shallow embedding of the three Verilator drivers of the repository:

    - [src/formal/formal_main.cpp]                        ([main_formal]),
    - [src/tb/sv_tb/verilator_tb_mlow_codec.cpp]          ([main_simple]),
    - [src/tb/sv_tb/verilator_tb_mlow_codec_comprehensive.cpp]
                                                          ([main_comprehensive]).

    The Verilated model and the VCD writer are external collaborators.  The
    model is an abstract state machine ([DutState], [eval_dut], [finish_flag]);
    each driver is a program in a small state-and-writer monad whose output is
    the chronological list of the calls it makes on the model and on the VCD
    writer.

    Loop counters and timestamps are C++ [int]s, modelled in [Z].  The
    parameters of [run_formal], [run_simple] and [run_comprehensive] stand
    for the literals of the sources; [main_formal], [main_simple] and
    [main_comprehensive] put the literals back.  With the literals every
    timestamp of the formal and of the comprehensive driver is below [2^31]
    ([formal_timestamps_fit_int], [comprehensive_timestamps_fit_int]), so
    that the arithmetic in [Z] is the arithmetic of the code. *)

From Stdlib Require Import ZArith List String Bool Lia.
Import ListNotations.
Local Open Scope string_scope.
Local Open Scope Z_scope.
Local Open Scope list_scope.

(** ** Ports of the model poked by the drivers *)

Inductive Port : Set :=
| reset_n_i | clk_i | audio_data_i | audio_valid_i | audio_ready_i
| frame_bus_ready_i | frame_ready_i | packet_ready_i
| encode_mode_i | bitrate_sel_i | bandwidth_sel_i.

Definition Port_eqb (p q : Port) : bool :=
  match p, q with
  | reset_n_i, reset_n_i | clk_i, clk_i | audio_data_i, audio_data_i
  | audio_valid_i, audio_valid_i | audio_ready_i, audio_ready_i
  | frame_bus_ready_i, frame_bus_ready_i | frame_ready_i, frame_ready_i
  | packet_ready_i, packet_ready_i | encode_mode_i, encode_mode_i
  | bitrate_sel_i, bitrate_sel_i | bandwidth_sel_i, bandwidth_sel_i => true
  | _, _ => false
  end.

(** The current value of every input port of the model object. *)
Definition Ports := Port -> Z.

(** [tb->p = v]. *)
Definition poke (p : Port) (v : Z) (tb : Ports) : Ports :=
  fun q => if Port_eqb q p then v else tb q.

(** ** Observable calls *)

(** One piece of a message written to standard output. *)
Inductive Piece : Set :=
| Text (s : string)
| Num (n : Z)
| Newline.

Inductive Event : Type :=
| CommandArgs (argv : list string)   (* Verilated::commandArgs(argc, argv) *)
| NewModel                           (* new V... *)
| TraceEverOn (on : bool)            (* Verilated::traceEverOn(on) *)
| NewTrace                           (* new VerilatedVcdC *)
| AttachTrace (levels : Z)           (* tb->trace(tfp, levels) *)
| Open (name : string)               (* tfp->open(name) *)
| Write (p : Port) (v : Z)           (* tb->p = v *)
| Eval (inputs : Ports)              (* tb->eval(), with the inputs it sees *)
| Dump (t : Z)                       (* tfp->dump(t) *)
| GotFinish (answer : bool)          (* Verilated::gotFinish() *)
| Close                              (* tfp->close() *)
| DeleteTrace                        (* delete tfp *)
| Final                              (* top->final() *)
| DeleteModel                        (* delete tb *)
| Print (msg : list Piece).          (* printf / std::cout *)

(** The sub-sequence of a trace selected and relabelled by [g]. *)
Fixpoint collect {A : Type} (g : Event -> option A) (l : list Event) : list A :=
  match l with
  | [] => []
  | e :: l' =>
      match g e with
      | Some a => a :: collect g l'
      | None => collect g l'
      end
  end.

(** Inputs seen by the successive evaluations. *)
Definition evals : list Event -> list Ports :=
  collect (fun e => match e with Eval p => Some p | _ => None end).

(** Timestamps of the successive trace captures. *)
Definition dumps : list Event -> list Z :=
  collect (fun e => match e with Dump t => Some t | _ => None end).

(** Values successively written to port [p]. *)
Definition writes (p : Port) : list Event -> list Z :=
  collect (fun e => match e with
                    | Write q v => if Port_eqb q p then Some v else None
                    | _ => None
                    end).

(** Answers of the successive completion tests. *)
Definition checks : list Event -> list bool :=
  collect (fun e => match e with GotFinish b => Some b | _ => None end).

(** Messages printed. *)
Definition prints : list Event -> list (list Piece) :=
  collect (fun e => match e with Print m => Some m | _ => None end).

(** The end-of-run calls, in the order they are made. *)
Definition teardown : list Event -> list Event :=
  collect (fun e => match e with
                    | Close | DeleteTrace | Final | DeleteModel => Some e
                    | _ => None
                    end).

(** The clock view of a trace: clock writes, evaluations and captures. *)
Inductive ClockObs : Set :=
| CClk (v : Z)
| CEval
| CDump (t : Z).

Definition clock_view : list Event -> list ClockObs :=
  collect (fun e => match e with
                    | Write clk_i v => Some (CClk v)
                    | Eval _ => Some CEval
                    | Dump t => Some (CDump t)
                    | _ => None
                    end).

(** The reset view of a trace: writes of the reset line, the reset and clock
    levels each evaluation sees, and captures. *)
Inductive ResetObs : Set :=
| RWrite (v : Z)
| REval (reset_n clk : Z)
| RDump (t : Z).

Definition reset_view : list Event -> list ResetObs :=
  collect (fun e => match e with
                    | Write reset_n_i v => Some (RWrite v)
                    | Eval p => Some (REval (p reset_n_i) (p clk_i))
                    | Dump t => Some (RDump t)
                    | _ => None
                    end).

(** The stimulus view: [(audio_valid_i, audio_data_i)] as each evaluation
    sees them. *)
Definition audio_view : list Event -> list (Z * Z) :=
  collect (fun e => match e with
                    | Eval p => Some (p audio_valid_i, p audio_data_i)
                    | _ => None
                    end).

(** The trace-sink view of a trace: what the VCD writer is asked to do. *)
Inductive SinkObs : Set :=
| SOpen (name : string)
| SDump (t : Z)
| SClose
| SDelete.

Definition sink_view : list Event -> list SinkObs :=
  collect (fun e => match e with
                    | Open name => Some (SOpen name)
                    | Dump t => Some (SDump t)
                    | Close => Some SClose
                    | DeleteTrace => Some SDelete
                    | _ => None
                    end).

(** Names of the files the VCD writer is asked to open. *)
Definition opens : list Event -> list string :=
  collect (fun e => match e with Open name => Some name | _ => None end).

(** A trace without its calls on the VCD writer. *)
Definition without_sink : list Event -> list Event :=
  collect (fun e => match e with
                    | TraceEverOn _ | NewTrace | AttachTrace _ | Open _
                    | Dump _ | Close | DeleteTrace => None
                    | _ => Some e
                    end).

(** Every write of an input port, in order. *)
Definition port_writes : list Event -> list (Port * Z) :=
  collect (fun e => match e with Write p v => Some (p, v) | _ => None end).

(** The inputs that [formal_main.cpp] sets once, before its loops, and their
    values (lines 33-39). *)
Definition config_ports : list Port :=
  [audio_ready_i; frame_bus_ready_i; frame_ready_i; packet_ready_i;
   encode_mode_i; bitrate_sel_i; bandwidth_sel_i].

Definition config_values : list Z := [1; 1; 1; 1; 1; 5; 1].

(** The values of those inputs as each evaluation sees them. *)
Definition config_view : list Event -> list (list Z) :=
  collect (fun e => match e with
                    | Eval p => Some (map p config_ports)
                    | _ => None
                    end).

(** Position of the first event satisfying [f]. *)
Fixpoint index_of (f : Event -> bool) (l : list Event) : option nat :=
  match l with
  | [] => None
  | e :: l' => if f e then Some O else option_map S (index_of f l')
  end.

Definition is_final (e : Event) : bool :=
  match e with Final => true | _ => false end.
Definition is_close (e : Event) : bool :=
  match e with Close => true | _ => false end.

(** [a; a+1; ...; a+n-1]. *)
Fixpoint range (a : Z) (n : nat) : list Z :=
  match n with
  | O => []
  | S n' => a :: range (a + 1) n'
  end.

(** [0; 1; ...; n-1]. *)
Definition upto (n : nat) : list Z := range 0 n.

(** A list of integers in which every element is the successor of the one
    before it: strictly increasing, no gap, no repeat. *)
Fixpoint consecutive (l : list Z) : Prop :=
  match l with
  | x :: ((y :: _) as l') => y = x + 1 /\ consecutive l'
  | _ => True
  end.

(** The state a driver works on. *)
Record World (DutState : Type) : Type := mkWorld {
  tb : Ports;             (* the input ports of the model object *)
  dut : DutState;         (* the model's internal state *)
  vcd_failed : bool       (* the VCD writer met an open or close failure *)
}.
Arguments mkWorld {DutState} _ _ _.
Arguments tb {DutState} _.
Arguments dut {DutState} _.
Arguments vcd_failed {DutState} _.

(** What running a program gives: its answer, the state it leaves, and the
    calls it made. *)
Definition result {D A} (r : A * World D * list Event) : A := fst (fst r).
Definition world {D A} (r : A * World D * list Event) : World D := snd (fst r).
Definition trace {D A} (r : A * World D * list Event) : list Event := snd r.

(** A stimulus window: [w_start <= i < w_stop] drives
    [w_base + (i - w_start)]. *)
Record Window : Set := mkWindow { w_start : Z; w_stop : Z; w_base : Z }.

Definition in_window (w : Window) (i : Z) : bool :=
  (w_start w <=? i) && (i <? w_stop w).

(** What the stimulus block of [formal_main.cpp] (lines 66-74) decides for
    loop index [i]: [Some v] is "drive [audio_data_i] with [v] and raise
    [audio_valid_i]", [None] is "lower [audio_valid_i]" ([audio_data_i] is
    left as it is). *)
Definition computeInputs (i : Z) : option Z :=
  if (i >=? 10) && (i <? 26) then Some (0x1234 + (i - 10))
  else if (i >=? 50) && (i <? 66) then Some (0x5678 + (i - 50))
  else None.

(** The same [if / else if / else] chain over any list of windows: the
    first window that contains [i] decides. *)
Fixpoint stimulus (ws : list Window) (i : Z) : option Z :=
  match ws with
  | [] => None
  | w :: ws' =>
      if in_window w i then Some (w_base w + (i - w_start w))
      else stimulus ws' i
  end.

Definition formal_windows : list Window :=
  [mkWindow 10 26 0x1234; mkWindow 50 66 0x5678].

(** [(audio_valid_i, audio_data_i)] once the decisions [stim 0], ...,
    [stim (n-1)] of the stimulus block have been applied to the idle
    values. *)
Fixpoint audio_before (stim : Z -> option Z) (n : nat) : Z * Z :=
  match n with
  | O => (0, 0)
  | S n' =>
      match stim (Z.of_nat n') with
      | Some d => (1, d)
      | None => (0, snd (audio_before stim n'))
      end
  end.

(** The ports carry the decision [v] of the stimulus block. *)
Definition carries (v : option Z) (valid data : Z) : Prop :=
  match v with
  | Some d => valid = 1 /\ data = d
  | None => valid = 0
  end.

(** ** A concrete model for running the drivers

    The model counts its evaluations and raises the finish flag during
    evaluation number [k] (counted from 0); [k = None] never finishes. *)
Definition counter_eval (_ : Ports) (n : nat) : nat := S n.
Definition counter_finish (k : option nat) (n : nat) : bool :=
  match k with Some k' => (k' <? n)%nat | None => false end.
Definition idle_ports : Ports := fun _ => 0.
Definition counter_world : World nat := mkWorld idle_ports O false.
Definition always_ok (_ : string) : bool := true.
Definition never_ok (_ : string) : bool := false.

Section Drivers.

(** ** The external collaborators *)

(** Internal state of a Verilated model, the global finish flag of the
    Verilator runtime included. *)
Variable DutState : Type.
(** [eval()]: one evaluation of the model under the current inputs. *)
Variable eval_dut : Ports -> DutState -> DutState.
(** [Verilated::gotFinish()]. *)
Variable finish_flag : DutState -> bool.
(** Whether the VCD writer manages to open the named file, and whether it
    manages to close it.  Both calls return [void]. *)
Variable open_ok : string -> bool.
Variable close_ok : bool.

(** ** Programs *)

Definition Prog (A : Type) : Type :=
  World DutState -> A * World DutState * list Event.

Definition ret {A} (a : A) : Prog A := fun w => (a, w, []).

Definition bind {A B} (c : Prog A) (k : A -> Prog B) : Prog B :=
  fun w =>
    let '(a, w1, l1) := c w in
    let '(b, w2, l2) := k a w1 in
    (b, w2, l1 ++ l2).

Notation "x <- c1 ;; c2" := (bind c1 (fun x => c2))
  (at level 61, c1 at next level, right associativity).
Notation "c1 ;; c2" := (bind c1 (fun _ => c2))
  (at level 61, right associativity).


Definition emit (e : Event) : Prog unit := fun w => (tt, w, [e]).

(** [tb->p = v;] *)
Definition set (p : Port) (v : Z) : Prog unit :=
  fun w => (tt, mkWorld (poke p v (tb w)) (dut w) (vcd_failed w), [Write p v]).

(** [tb->eval();] *)
Definition eval : Prog unit :=
  fun w => (tt, mkWorld (tb w) (eval_dut (tb w) (dut w)) (vcd_failed w),
            [Eval (tb w)]).

(** [tfp->dump(t);] *)
Definition dump (t : Z) : Prog unit := emit (Dump t).

(** [Verilated::gotFinish()] *)
Definition gotFinish : Prog bool :=
  fun w => (finish_flag (dut w), w, [GotFinish (finish_flag (dut w))]).

(** [tfp->open(name);] *)
Definition open (name : string) : Prog unit :=
  fun w => (tt, mkWorld (tb w) (dut w) (vcd_failed w || negb (open_ok name)),
            [Open name]).

(** [tfp->close();] *)
Definition close : Prog unit :=
  fun w => (tt, mkWorld (tb w) (dut w) (vcd_failed w || negb close_ok),
            [Close]).

(** [for (int i = a; i < a + n; i++) body(i);] *)
Fixpoint for_from (a : Z) (n : nat) (body : Z -> Prog unit) : Prog unit :=
  match n with
  | O => ret tt
  | S n' => body a ;; for_from (a + 1) n' body
  end.

Definition for_loop (n : nat) (body : Z -> Prog unit) : Prog unit :=
  for_from 0 n body.

(** The same loop with a body that may [break]: the body answers [true]
    when it breaks. *)
Fixpoint for_break_from (a : Z) (n : nat) (body : Z -> Prog bool)
  : Prog unit :=
  match n with
  | O => ret tt
  | S n' => stop <- body a ;;
            if stop then ret tt else for_break_from (a + 1) n' body
  end.

Definition for_break (n : nat) (body : Z -> Prog bool) : Prog unit :=
  for_break_from 0 n body.

(** *** formal_main.cpp *)

(** The two clock phases that both loops of [formal_main.cpp] spell out
    (lines 43-49 with [c = i], lines 57-63 with [c = i + 5]). *)
Definition stepCycle (c : Z) : Prog unit :=
  set clk_i 0 ;;
  eval ;;
  dump (c * 2) ;;
  set clk_i 1 ;;
  eval ;;
  dump (c * 2 + 1).

(** Lines 66-74: the decision applied to the ports. *)
Definition applyInputs (v : option Z) : Prog unit :=
  match v with
  | Some d => set audio_data_i d ;; set audio_valid_i 1
  | None => set audio_valid_i 0
  end.

(** Lines 17-39: construction, trace set-up, idle values of the inputs. *)
Definition formal_init (argv : list string) : Prog unit :=
  emit (CommandArgs argv) ;;
  emit NewModel ;;
  emit (TraceEverOn true) ;;
  emit NewTrace ;;
  emit (AttachTrace 99) ;;
  open "formal_testbench.vcd" ;;
  set reset_n_i 0 ;;
  set audio_data_i 0 ;;
  set audio_valid_i 0 ;;
  set audio_ready_i 1 ;;
  set frame_bus_ready_i 1 ;;
  set frame_ready_i 1 ;;
  set packet_ready_i 1 ;;
  set encode_mode_i 1 ;;
  set bitrate_sel_i 5 ;;
  set bandwidth_sel_i 1.

(** Lines 77-83. *)
Definition formal_cleanup : Prog Z :=
  close ;;
  emit DeleteTrace ;;
  emit DeleteModel ;;
  emit (Print [Text "Formal verification completed successfully"; Newline]) ;;
  ret 0.

(** Body of the run loop, lines 57-74, for loop index [i]. *)
Definition formal_body (resetHold : nat) (stim : Z -> option Z) (i : Z)
  : Prog unit :=
  stepCycle (i + Z.of_nat resetHold) ;;
  applyInputs (stim i).

(** [formal_main.cpp] with its reset loop bound, its run loop bound and the
    decision of its stimulus block as parameters.  The answer is the exit
    code. *)
Definition run_formal (resetHold budget : nat) (stim : Z -> option Z)
           (argv : list string) : Prog Z :=
  formal_init argv ;;
  for_loop resetHold (fun i => stepCycle i) ;;
  set reset_n_i 1 ;;
  for_loop budget (formal_body resetHold stim) ;;
  formal_cleanup.

(** [main] of [formal_main.cpp]. *)
Definition main_formal (argv : list string) : Prog Z :=
  run_formal 5 200 computeInputs argv.

(** *** verilator_tb_mlow_codec.cpp *)

(** [if (tfp) ...]: [tfp] is non-null exactly when the file is compiled
    with [VM_TRACE]. *)
Definition when (b : bool) (c : Prog unit) : Prog unit :=
  if b then c else ret tt.

(** [verilator_tb_mlow_codec.cpp] with its two loop bounds as parameters;
    [vm_trace] says whether [VM_TRACE] is defined. *)
Definition run_simple (vm_trace : bool) (resetIters budget : nat)
           (argv : list string) : Prog Z :=
  emit (CommandArgs argv) ;;
  emit NewModel ;;
  when vm_trace (
    emit (TraceEverOn true) ;;
    emit NewTrace ;;
    emit (AttachTrace 99) ;;
    open "tb_mlow_codec_verilator.vcd") ;;
  for_loop resetIters (fun i =>
    eval ;;
    when vm_trace (dump i)) ;;
  for_break budget (fun i =>
    eval ;;
    when vm_trace (dump (Z.of_nat resetIters + i)) ;;
    gotFinish) ;;
  when vm_trace (close ;; emit DeleteTrace) ;;
  emit Final ;;
  emit DeleteModel ;;
  ret 0.

(** [main] of [verilator_tb_mlow_codec.cpp]. *)
Definition main_simple (vm_trace : bool) (argv : list string) : Prog Z :=
  run_simple vm_trace 10 (Z.to_nat 10000) argv.

(** *** verilator_tb_mlow_codec_comprehensive.cpp *)

(** Lines 32-37: the first argument after [argv[0]] that starts with
    [+vcd_file=] names the trace file. *)
Fixpoint find_vcd_file (args : list string) : option string :=
  match args with
  | [] => None
  | a :: rest =>
      if prefix "+vcd_file=" a
      then Some (substring 10 (String.length a - 10) a)
      else find_vcd_file rest
  end.

Definition vcd_filename (argv : list string) : string :=
  match find_vcd_file (tl argv) with
  | Some f => f
  | None => "tb_mlow_codec_comprehensive.vcd"
  end.

(** [while (!Verilated::gotFinish() && cycle < budget) { ... cycle++; }]
    The answer is the final value of [cycle], or [None] when [fuel] loop
    tests were not enough to leave the loop. *)
Fixpoint while_running (fuel : nat) (budget cycle : Z) : Prog (option Z) :=
  match fuel with
  | O => ret None
  | S fuel' =>
      fin <- gotFinish ;;
      if negb fin && (cycle <? budget)
      then eval ;;
           dump cycle ;;
           while_running fuel' budget (cycle + 1)
      else ret (Some cycle)
  end.

(** [verilator_tb_mlow_codec_comprehensive.cpp] with the loop bound as a
    parameter.  The answer is the exit code. *)
Definition run_comprehensive (budget : Z) (argv : list string)
  : Prog (option Z) :=
  emit (CommandArgs argv) ;;
  emit NewModel ;;
  emit (TraceEverOn true) ;;
  emit NewTrace ;;
  emit (AttachTrace 99) ;;
  open (vcd_filename argv) ;;
  r <- while_running (S (Z.to_nat budget)) budget 0 ;;
  match r with
  | None => ret None
  | Some cycle =>
      close ;;
      emit DeleteTrace ;;
      emit DeleteModel ;;
      emit (Print [Text "Comprehensive testbench simulation completed after ";
                   Num cycle; Text " cycles."; Newline]) ;;
      ret (Some 0)
  end.

(** [main] of [verilator_tb_mlow_codec_comprehensive.cpp]. *)
Definition main_comprehensive (argv : list string) : Prog (option Z) :=
  run_comprehensive 50000 argv.



(** [n] evaluations in a row under unchanged inputs [p]. *)
Fixpoint evals_from (n : nat) (p : Ports) (m : DutState) : DutState :=
  match n with
  | O => m
  | S n' => evals_from n' p (eval_dut p m)
  end.

(** The calls of one iteration of the loops of [verilator_tb_mlow_codec.cpp]
    before its completion test: [eval()], then [dump(t)] when tracing is
    compiled in. *)
Definition simple_step (vm_trace : bool) (p : Ports) (t : Z) : list Event :=
  (Eval p) :: (if vm_trace then [Dump t] else []).

(** The calls of [k] iterations of its run loop, from loop index [a], under
    inputs [p]: every completion test but the last answers [false], the
    last answers [b]. *)
Definition simple_run_events (vm_trace : bool) (p : Ports) (offset a : Z)
           (k : nat) (b : bool) : list Event :=
  match k with
  | O => []
  | S m =>
      flat_map (fun i => simple_step vm_trace p (offset + i)
                         ++ [GotFinish false]) (range a m)
      ++ simple_step vm_trace p (offset + (a + Z.of_nat m))
      ++ [GotFinish b]
  end.

(** ** Lists of consecutive integers *)

Lemma range_length (n : nat) : forall a, List.length (range a n) = n.
Proof. induction n as [|n IH]; intro a; simpl; [reflexivity | now rewrite IH]. Qed.

Lemma range_app (n m : nat) :
  forall a, range a (n + m) = range a n ++ range (a + Z.of_nat n) m.
Proof.
  induction n as [|n IH]; intro a.
  - simpl. now rewrite Z.add_0_r.
  - cbn [Nat.add range app]. rewrite IH. do 3 f_equal. lia.
Qed.

Lemma range_In (n : nat) : forall a x, In x (range a n) <-> a <= x < a + Z.of_nat n.
Proof.
  induction n as [|n IH]; intros a x.
  - simpl. lia.
  - cbn [range In]. rewrite IH. lia.
Qed.

Lemma range_nth (n : nat) :
  forall a k, (k < n)%nat -> nth_error (range a n) k = Some (a + Z.of_nat k).
Proof.
  induction n as [|n IH]; intros a k Hk; [lia|].
  destruct k as [|k]; simpl.
  - now rewrite Z.add_0_r.
  - rewrite IH by lia. f_equal. lia.
Qed.

Lemma range_consecutive (n : nat) : forall a, consecutive (range a n).
Proof.
  induction n as [|n IH]; intro a; [exact I|].
  destruct n as [|n]; [exact I|].
  change (a + 1 = a + 1 /\ consecutive (range (a + 1) (S n))).
  split; [reflexivity | apply IH].
Qed.

Lemma flat_map_range_shift {A} (f : Z -> list A) (d : Z) (n : nat) :
  forall a, flat_map (fun i => f (i + d)) (range a n) = flat_map f (range (a + d) n).
Proof.
  induction n as [|n IH]; intro a; [reflexivity|].
  cbn [range flat_map]. rewrite IH. do 3 f_equal. lia.
Qed.

Lemma flat_map_range_ext {A} (f g : Z -> list A) (n : nat) :
  forall a, (forall i, a <= i < a + Z.of_nat n -> f i = g i) ->
            flat_map f (range a n) = flat_map g (range a n).
Proof.
  induction n as [|n IH]; intros a H; [reflexivity|].
  cbn [range flat_map]. rewrite (H a) by lia. f_equal.
  apply IH. intros i Hi. apply H. lia.
Qed.

(** The two timestamps of every cycle, cycle after cycle, are the integers
    in order. *)
Lemma phases_range (n : nat) :
  forall a, flat_map (fun c => [c * 2; c * 2 + 1]) (range a n)
            = range (a * 2) (2 * n).
Proof.
  induction n as [|n IH]; intro a; [reflexivity|].
  replace (2 * S n)%nat with (S (S (2 * n))) by lia.
  cbn [range flat_map app]. rewrite IH. do 3 f_equal. lia.
Qed.

(** Position [2 k + ph] of a list made of one pair per cycle. *)
Lemma pairs_nth {A} (f g : Z -> A) (n : nat) :
  forall a k, (k < n)%nat ->
    nth_error (flat_map (fun c => [f c; g c]) (range a n)) (2 * k)
      = Some (f (a + Z.of_nat k)) /\
    nth_error (flat_map (fun c => [f c; g c]) (range a n)) (2 * k + 1)
      = Some (g (a + Z.of_nat k)).
Proof.
  induction n as [|n IH]; intros a k Hk; [lia|].
  destruct k as [|k].
  - simpl. now rewrite Z.add_0_r.
  - replace (2 * S k)%nat with (S (S (2 * k))) by lia.
    cbn [range flat_map app Nat.add nth_error].
    destruct (IH (a + 1) k) as [H0 H1]; [lia|].
    rewrite H0, H1. split; do 2 f_equal; lia.
Qed.

(** ** Traces *)

Lemma collect_app {A} (g : Event -> option A) (l1 l2 : list Event) :
  collect g (l1 ++ l2) = collect g l1 ++ collect g l2.
Proof.
  induction l1 as [|e l1 IH]; [reflexivity|].
  simpl. destruct (g e); simpl; now rewrite IH.
Qed.

Lemma bind_run {A B} (c : Prog A) (k : A -> Prog B) (w : World DutState) :
  bind c k w
  = (result (k (result (c w)) (world (c w))),
     world (k (result (c w)) (world (c w))),
     trace (c w) ++ trace (k (result (c w)) (world (c w)))).
Proof.
  unfold bind, result, world, trace.
  destruct (c w) as [[a w1] l1]. simpl.
  destruct (k a w1) as [[b w2] l2]. reflexivity.
Qed.

Lemma trace_bind {A B} (c : Prog A) (k : A -> Prog B) (w : World DutState) :
  trace (bind c k w) = trace (c w) ++ trace (k (result (c w)) (world (c w))).
Proof. now rewrite bind_run. Qed.

Lemma world_bind {A B} (c : Prog A) (k : A -> Prog B) (w : World DutState) :
  world (bind c k w) = world (k (result (c w)) (world (c w))).
Proof. now rewrite bind_run. Qed.

Lemma result_bind {A B} (c : Prog A) (k : A -> Prog B) (w : World DutState) :
  result (bind c k w) = result (k (result (c w)) (world (c w))).
Proof. now rewrite bind_run. Qed.

(** A counted loop whose body keeps an invariant [I] and shows [f i] in the
    view [g] shows [f a], [f (a+1)], ... in that view. *)
Lemma for_from_view {A} (g : Event -> option A)
      (I : Z -> World DutState -> Prop) (f : Z -> list A)
      (body : Z -> Prog unit) (lo : Z) :
  (forall i w, lo <= i -> I i w ->
     I (i + 1) (world (body i w)) /\ collect g (trace (body i w)) = f i) ->
  forall n a w, lo <= a -> I a w ->
    I (a + Z.of_nat n) (world (for_from a n body w)) /\
    collect g (trace (for_from a n body w)) = flat_map f (range a n).
Proof.
  intros Hbody n. induction n as [|n IH]; intros a w Ha Hw.
  - simpl. rewrite Z.add_0_r. split; [exact Hw | reflexivity].
  - cbn [for_from range flat_map].
    rewrite world_bind, trace_bind, collect_app.
    destruct (Hbody a w Ha Hw) as [Hw1 Ht1].
    destruct (IH (a + 1) (world (body a w))) as [Hw2 Ht2]; [lia | exact Hw1 |].
    rewrite Ht1, Ht2. split; [|reflexivity].
    replace (a + Z.of_nat (S n)) with (a + 1 + Z.of_nat n) by lia. exact Hw2.
Qed.

(** ** The formal driver, phase by phase *)

Lemma run_formal_phases (R N : nat) (stim : Z -> option Z) (argv : list string)
      (w : World DutState) :
  let w1 := world (formal_init argv w) in
  let w2 := world (for_loop R (fun i => stepCycle i) w1) in
  let w3 := world (set reset_n_i 1 w2) in
  let w4 := world (for_loop N (formal_body R stim) w3) in
  trace (run_formal R N stim argv w)
  = trace (formal_init argv w)
    ++ trace (for_loop R (fun i => stepCycle i) w1)
    ++ [Write reset_n_i 1]
    ++ trace (for_loop N (formal_body R stim) w3)
    ++ trace (formal_cleanup w4)
  /\ result (run_formal R N stim argv w) = 0
  /\ tb (world (run_formal R N stim argv w)) = tb w4.
Proof.
  intros w1 w2 w3 w4. unfold run_formal.
  repeat split.
  - rewrite ?trace_bind, ?world_bind. reflexivity.
  - rewrite ?result_bind. reflexivity.
  - rewrite ?world_bind. reflexivity.
Qed.

Lemma formal_init_run (argv : list string) (w : World DutState) :
  formal_init argv w =
  (tt,
   mkWorld
     (poke bandwidth_sel_i 1 (poke bitrate_sel_i 5 (poke encode_mode_i 1
      (poke packet_ready_i 1 (poke frame_ready_i 1 (poke frame_bus_ready_i 1
      (poke audio_ready_i 1 (poke audio_valid_i 0 (poke audio_data_i 0
      (poke reset_n_i 0 (tb w)))))))))))
     (dut w)
     (vcd_failed w || negb (open_ok "formal_testbench.vcd")),
   [CommandArgs argv; NewModel; TraceEverOn true; NewTrace; AttachTrace 99;
    Open "formal_testbench.vcd";
    Write reset_n_i 0; Write audio_data_i 0; Write audio_valid_i 0;
    Write audio_ready_i 1; Write frame_bus_ready_i 1; Write frame_ready_i 1;
    Write packet_ready_i 1; Write encode_mode_i 1; Write bitrate_sel_i 5;
    Write bandwidth_sel_i 1]).
Proof. reflexivity. Qed.

Lemma formal_cleanup_run (w : World DutState) :
  formal_cleanup w =
  (0, mkWorld (tb w) (dut w) (vcd_failed w || negb close_ok),
   [Close; DeleteTrace; DeleteModel;
    Print [Text "Formal verification completed successfully"; Newline]]).
Proof. reflexivity. Qed.

(** What the stimulus block writes. *)
Lemma applyInputs_run (v : option Z) (w : World DutState) :
  applyInputs v w =
  match v with
  | Some d => (tt, mkWorld (poke audio_valid_i 1 (poke audio_data_i d (tb w)))
                           (dut w) (vcd_failed w),
               [Write audio_data_i d; Write audio_valid_i 1])
  | None => (tt, mkWorld (poke audio_valid_i 0 (tb w)) (dut w) (vcd_failed w),
             [Write audio_valid_i 0])
  end.
Proof. destruct v; reflexivity. Qed.

Lemma stepCycle_run (c : Z) (w : World DutState) :
  stepCycle c w =
  (tt,
   mkWorld (poke clk_i 1 (poke clk_i 0 (tb w)))
           (eval_dut (poke clk_i 1 (poke clk_i 0 (tb w)))
                     (eval_dut (poke clk_i 0 (tb w)) (dut w)))
           (vcd_failed w),
   [Write clk_i 0; Eval (poke clk_i 0 (tb w)); Dump (c * 2);
    Write clk_i 1; Eval (poke clk_i 1 (poke clk_i 0 (tb w))); Dump (c * 2 + 1)]).
Proof. reflexivity. Qed.

Lemma formal_body_run (R : nat) (stim : Z -> option Z) (i : Z) (w : World DutState) :
  formal_body R stim i w
  = (tt, world (applyInputs (stim i) (world (stepCycle (i + Z.of_nat R) w))),
     trace (stepCycle (i + Z.of_nat R) w)
     ++ trace (applyInputs (stim i) (world (stepCycle (i + Z.of_nat R) w)))).
Proof.
  unfold formal_body. rewrite bind_run. f_equal. f_equal.
  now destruct (result _).
Qed.

(** Every view of a run of the formal driver is the view of its set-up, of
    the cycles under reset, of the release of reset, of the cycles of the
    run loop and of its tear-down, provided the two loop bodies keep an
    invariant and show [f1 c], [f2 i] in the view. *)
Lemma run_formal_view {A} (g : Event -> option A)
      (I : Z -> World DutState -> Prop) (J : Z -> World DutState -> Prop)
      (f1 f2 : Z -> list A)
      (R N : nat) (stim : Z -> option Z) (argv : list string) (w : World DutState) :
  I 0 (world (formal_init argv w)) ->
  (forall c w', 0 <= c -> I c w' ->
     I (c + 1) (world (stepCycle c w')) /\
     collect g (trace (stepCycle c w')) = f1 c) ->
  (forall w', I (Z.of_nat R) w' -> J 0 (world (set reset_n_i 1 w'))) ->
  (forall i w', 0 <= i -> J i w' ->
     J (i + 1) (world (formal_body R stim i w')) /\
     collect g (trace (formal_body R stim i w')) = f2 i) ->
  collect g (trace (run_formal R N stim argv w))
  = collect g (trace (formal_init argv w))
    ++ flat_map f1 (upto R)
    ++ collect g [Write reset_n_i 1]
    ++ flat_map f2 (upto N)
    ++ collect g [Close; DeleteTrace; DeleteModel;
                  Print [Text "Formal verification completed successfully";
                         Newline]].
Proof.
  intros H0 H1 Hrel H2.
  destruct (run_formal_phases R N stim argv w) as [Ht _]. cbv zeta in Ht.
  rewrite Ht, !collect_app. clear Ht.
  unfold for_loop.
  destruct (for_from_view g I f1 (fun i => stepCycle i) 0 H1 R 0
              (world (formal_init argv w))) as [HI1 Hv1]; [lia | exact H0 |].
  rewrite Hv1. rewrite Z.add_0_l in HI1.
  destruct (for_from_view g J f2 (formal_body R stim) 0 H2 N 0
              (world (set reset_n_i 1
                 (world (for_from 0 R (fun i => stepCycle i)
                           (world (formal_init argv w)))))))
    as [_ Hv2]; [lia | now apply Hrel |].
  rewrite Hv2. rewrite formal_cleanup_run. reflexivity.
Qed.

Ltac body_view :=
  rewrite ?formal_body_run, ?stepCycle_run;
  try match goal with
      | |- context [applyInputs ?v _] => destruct v
      end;
  rewrite ?applyInputs_run;
  unfold trace, world; cbn [fst snd];
  rewrite ?collect_app;
  cbn.

Lemma formal_clock_view (R N : nat) (stim : Z -> option Z) (argv : list string)
      (w : World DutState) :
  clock_view (trace (run_formal R N stim argv w))
  = flat_map (fun c => [CClk 0; CEval; CDump (c * 2);
                        CClk 1; CEval; CDump (c * 2 + 1)]) (upto (R + N)).
Proof.
  unfold clock_view.
  rewrite (run_formal_view _ (fun _ _ => True) (fun _ _ => True)
             (fun c => [CClk 0; CEval; CDump (c * 2);
                        CClk 1; CEval; CDump (c * 2 + 1)])
             (fun i => [CClk 0; CEval; CDump ((i + Z.of_nat R) * 2);
                        CClk 1; CEval; CDump ((i + Z.of_nat R) * 2 + 1)])).
  - rewrite formal_init_run. cbn [trace snd collect app]. rewrite app_nil_r.
    unfold upto. rewrite range_app.
    rewrite (flat_map_range_shift
               (fun c => [CClk 0; CEval; CDump (c * 2);
                          CClk 1; CEval; CDump (c * 2 + 1)])).
    now rewrite flat_map_app.
  - exact I.
  - intros c w' _ _. split; [exact I | body_view; reflexivity].
  - intros; exact I.
  - intros i w' _ _. split; [exact I | body_view; reflexivity].
Qed.

Lemma formal_dumps (R N : nat) (stim : Z -> option Z) (argv : list string)
      (w : World DutState) :
  dumps (trace (run_formal R N stim argv w)) = upto (2 * (R + N)).
Proof.
  unfold dumps.
  rewrite (run_formal_view _ (fun _ _ => True) (fun _ _ => True)
             (fun c => [c * 2; c * 2 + 1])
             (fun i => [(i + Z.of_nat R) * 2; (i + Z.of_nat R) * 2 + 1])).
  - rewrite formal_init_run. cbn [trace snd collect app]. rewrite app_nil_r.
    unfold upto.
    rewrite (flat_map_range_shift (fun c => [c * 2; c * 2 + 1])).
    rewrite !phases_range.
    replace (2 * (R + N))%nat with (2 * R + 2 * N)%nat by lia.
    rewrite range_app. do 2 f_equal. lia.
  - exact I.
  - intros c w' _ _. split; [exact I | body_view; reflexivity].
  - intros; exact I.
  - intros i w' _ _. split; [exact I | body_view; reflexivity].
Qed.

Lemma formal_reset_view (R N : nat) (stim : Z -> option Z) (argv : list string)
      (w : World DutState) :
  reset_view (trace (run_formal R N stim argv w))
  = [RWrite 0]
    ++ flat_map (fun c => [REval 0 0; RDump (2 * c);
                           REval 0 1; RDump (2 * c + 1)]) (upto R)
    ++ [RWrite 1]
    ++ flat_map (fun c => [REval 1 0; RDump (2 * c);
                           REval 1 1; RDump (2 * c + 1)])
                (range (Z.of_nat R) N).
Proof.
  unfold reset_view.
  rewrite (run_formal_view _ (fun _ w' => tb w' reset_n_i = 0)
             (fun _ w' => tb w' reset_n_i = 1)
             (fun c => [REval 0 0; RDump (2 * c); REval 0 1; RDump (2 * c + 1)])
             (fun i => [REval 1 0; RDump (2 * (i + Z.of_nat R));
                        REval 1 1; RDump (2 * (i + Z.of_nat R) + 1)])).
  - rewrite formal_init_run. cbn [trace snd collect app].
    rewrite app_nil_r. unfold upto.
    rewrite (flat_map_range_shift
               (fun c => [REval 1 0; RDump (2 * c); REval 1 1; RDump (2 * c + 1)])).
    reflexivity.
  - rewrite formal_init_run. reflexivity.
  - intros c w' _ Hr. split; [exact Hr|].
    body_view. unfold poke; cbn. rewrite Hr, (Z.mul_comm c 2). reflexivity.
  - intros; reflexivity.
  - intros i w' _ Hr. split.
    + body_view; exact Hr.
    + body_view; unfold poke; cbn;
        rewrite Hr, (Z.mul_comm (i + Z.of_nat R) 2); reflexivity.
Qed.

Lemma formal_reset_writes (R N : nat) (stim : Z -> option Z) (argv : list string)
      (w : World DutState) :
  writes reset_n_i (trace (run_formal R N stim argv w)) = [0; 1].
Proof.
  unfold writes.
  rewrite (run_formal_view _ (fun _ _ => True) (fun _ _ => True)
             (fun _ => []) (fun _ => [])).
  - rewrite formal_init_run. cbn [trace snd collect app Port_eqb].
    assert (E : forall (l : list Z), flat_map (fun _ : Z => @nil Z) l = [])
      by (induction l; auto).
    now rewrite !E.
  - exact I.
  - intros c w' _ _. split; [exact I | body_view; reflexivity].
  - intros; exact I.
  - intros i w' _ _. split; [exact I | body_view; reflexivity].
Qed.

Lemma audio_before_carries (stim : Z -> option Z) (n : nat) :
  carries (stim (Z.of_nat n))
          (fst (audio_before stim (S n))) (snd (audio_before stim (S n))).
Proof.
  cbn [audio_before]. destruct (stim (Z.of_nat n)); simpl; auto.
Qed.

Lemma formal_audio_view (R N : nat) (stim : Z -> option Z) (argv : list string)
      (w : World DutState) :
  audio_view (trace (run_formal R N stim argv w))
  = flat_map (fun c => [if c <? Z.of_nat R then (0, 0)
                        else audio_before stim (Z.to_nat (c - Z.of_nat R));
                        if c <? Z.of_nat R then (0, 0)
                        else audio_before stim (Z.to_nat (c - Z.of_nat R))])
             (upto (R + N)).
Proof.
  unfold audio_view.
  rewrite (run_formal_view _
             (fun _ w' => tb w' audio_valid_i = 0 /\ tb w' audio_data_i = 0)
             (fun i w' => (tb w' audio_valid_i, tb w' audio_data_i)
                          = audio_before stim (Z.to_nat i))
             (fun _ => [(0, 0); (0, 0)])
             (fun i => [audio_before stim (Z.to_nat i);
                        audio_before stim (Z.to_nat i)])).
  - rewrite formal_init_run. cbn [trace snd collect app]. rewrite app_nil_r.
    unfold upto. rewrite range_app, flat_map_app. f_equal.
    + apply flat_map_range_ext. intros i Hi.
      destruct (Z.ltb_spec i (Z.of_nat R)); [reflexivity | lia].
    + rewrite <- (flat_map_range_shift _ (Z.of_nat R) N 0).
      apply flat_map_range_ext. intros i Hi.
      destruct (Z.ltb_spec (i + Z.of_nat R) (Z.of_nat R)); [lia|].
      now replace (i + Z.of_nat R - Z.of_nat R) with i by lia.
  - rewrite formal_init_run. split; reflexivity.
  - intros c w' _ [Hv Hd]. split.
    + body_view. split; assumption.
    + body_view. unfold poke; cbn. now rewrite Hv, Hd.
  - intros w' [Hv Hd]. cbn. unfold poke; cbn. now rewrite Hv, Hd.
  - intros i w' Hi HJ.
    replace (Z.to_nat (i + 1)) with (S (Z.to_nat i)) by lia.
    cbn [audio_before]. rewrite Z2Nat.id by lia.
    rewrite <- HJ. split.
    + body_view; reflexivity.
    + body_view; reflexivity.
Qed.

(** ** The comprehensive driver *)

Lemma collect_flat_map {A B} (g : Event -> option A) (F : B -> list Event)
      (l : list B) :
  collect g (flat_map F l) = flat_map (fun x => collect g (F x)) l.
Proof.
  induction l as [|x l IH]; [reflexivity|].
  simpl. now rewrite collect_app, IH.
Qed.

Lemma flat_map_single {A} (l : list A) : flat_map (fun x => [x]) l = l.
Proof. induction l as [|x l IH]; [reflexivity | simpl; now rewrite IH]. Qed.

Lemma flat_map_const_length {A B} (b : B) (l : list A) :
  List.length (flat_map (fun _ => [b]) l) = List.length l.
Proof. induction l as [|x l IH]; [reflexivity | simpl; now rewrite IH]. Qed.

Lemma flat_map_const_repeat {A B} (b : B) (l : list A) :
  flat_map (fun _ => [b]) l = repeat b (List.length l).
Proof. induction l as [|x l IH]; [reflexivity | simpl; now rewrite IH]. Qed.

Lemma flat_map_nil {A B} (l : list A) : flat_map (fun _ => @nil B) l = [].
Proof. induction l as [|x l IH]; [reflexivity | exact IH]. Qed.

(** The loop leaves after [n] cycles, where [n] is the first count of
    evaluations at which the finish flag is up or the budget is reached. *)
Lemma while_running_run (fuel : nat) :
  forall (budget cycle : Z) (w : World DutState),
    (Z.to_nat (budget - cycle) < fuel)%nat ->
    exists n : nat,
      while_running fuel budget cycle w
      = (Some (cycle + Z.of_nat n),
         mkWorld (tb w) (evals_from n (tb w) (dut w)) (vcd_failed w),
         flat_map (fun c => [GotFinish false; Eval (tb w); Dump c])
                  (range cycle n)
         ++ [GotFinish (finish_flag (evals_from n (tb w) (dut w)))])
      /\ (forall j, (j < n)%nat ->
            finish_flag (evals_from j (tb w) (dut w)) = false)
      /\ Z.of_nat n <= Z.max 0 (budget - cycle)
      /\ (finish_flag (evals_from n (tb w) (dut w)) = true
          \/ budget <= cycle + Z.of_nat n).
Proof.
  induction fuel as [|fuel IH]; intros budget cycle w Hfuel; [lia|].
  destruct w as [p m f].
  cbn [while_running]. unfold bind at 1. unfold gotFinish.
  cbn [tb dut vcd_failed].
  destruct (finish_flag m) eqn:Efin; cbn [negb andb].
  - exists O. cbn. rewrite Efin, Z.add_0_r.
    repeat split; [intros; lia | lia | now left].
  - destruct (Z.ltb_spec cycle budget) as [Hlt|Hge].
    + destruct (IH budget (cycle + 1) (mkWorld p (eval_dut p m) f))
        as (n & Hrun & Hlow & Hmax & Hstop); [lia|].
      cbn [tb dut vcd_failed] in Hrun, Hlow, Hstop.
      exists (S n). unfold bind, eval, dump, emit. cbn [tb dut vcd_failed].
      rewrite Hrun. cbn [app evals_from range flat_map].
      repeat split.
      * do 3 f_equal. lia.
      * intros [|j] Hj; [exact Efin | apply Hlow; lia].
      * lia.
      * destruct Hstop as [Hs|Hs]; [now left | right; lia].
    + exists O. cbn. rewrite Efin, Z.add_0_r.
      repeat split; [intros; lia | lia | now right].
Qed.

Lemma run_comprehensive_run (budget : Z) (argv : list string)
      (w : World DutState) :
  exists n : nat,
    run_comprehensive budget argv w
    = (Some 0,
       mkWorld (tb w) (evals_from n (tb w) (dut w))
               (vcd_failed w || negb (open_ok (vcd_filename argv))
                || negb close_ok),
       [CommandArgs argv; NewModel; TraceEverOn true; NewTrace; AttachTrace 99;
        Open (vcd_filename argv)]
       ++ flat_map (fun c => [GotFinish false; Eval (tb w); Dump c]) (upto n)
       ++ [GotFinish (finish_flag (evals_from n (tb w) (dut w)));
           Close; DeleteTrace; DeleteModel;
           Print [Text "Comprehensive testbench simulation completed after ";
                  Num (Z.of_nat n); Text " cycles."; Newline]])
    /\ (forall j, (j < n)%nat ->
          finish_flag (evals_from j (tb w) (dut w)) = false)
    /\ Z.of_nat n <= Z.max 0 budget
    /\ (finish_flag (evals_from n (tb w) (dut w)) = true
        \/ budget <= Z.of_nat n).
Proof.
  destruct (while_running_run (S (Z.to_nat budget)) budget 0
              (mkWorld (tb w) (dut w)
                 (vcd_failed w || negb (open_ok (vcd_filename argv)))))
    as (n & Hrun & Hlow & Hmax & Hstop); [lia|].
  cbn [tb dut vcd_failed] in Hrun, Hlow, Hstop.
  rewrite Z.sub_0_r in Hmax. rewrite Z.add_0_l in Hstop.
  exists n. repeat split; try assumption.
  unfold run_comprehensive, bind, emit, open.
  cbn [tb dut vcd_failed].
  rewrite Hrun. unfold close, ret. cbv beta iota zeta.
  cbn [tb dut vcd_failed]. rewrite Z.add_0_l, <- app_assoc. reflexivity.
Qed.

(** ** The simple driver *)

Lemma for_break_from_silent {A} (g : Event -> option A) (body : Z -> Prog bool) :
  (forall i w, collect g (trace (body i w)) = []) ->
  forall n a w, collect g (trace (for_break_from a n body w)) = [].
Proof.
  intros Hbody n. induction n as [|n IH]; intros a w; [reflexivity|].
  cbn [for_break_from]. rewrite trace_bind, collect_app, Hbody.
  destruct (result (body a w)); [reflexivity | apply IH].
Qed.

Lemma for_from_silent {A} (g : Event -> option A) (body : Z -> Prog unit) :
  (forall i w, collect g (trace (body i w)) = []) ->
  forall n a w, collect g (trace (for_from a n body w)) = [].
Proof.
  intros Hbody n. induction n as [|n IH]; intros a w; [reflexivity|].
  cbn [for_from]. now rewrite trace_bind, collect_app, Hbody, IH.
Qed.

(** The trace of the simple driver: set-up, reset loop, run loop, tear-down. *)
Lemma run_simple_trace (vm_trace : bool) (R N : nat) (argv : list string)
      (w : World DutState) :
  exists w1 w2 : World DutState,
    trace (run_simple vm_trace R N argv w)
    = ([CommandArgs argv; NewModel]
       ++ (if vm_trace
           then [TraceEverOn true; NewTrace; AttachTrace 99;
                 Open "tb_mlow_codec_verilator.vcd"]
           else []))
      ++ trace (for_loop R (fun i => eval ;; when vm_trace (dump i)) w1)
      ++ trace (for_break N (fun i =>
                  eval ;;
                  when vm_trace (dump (Z.of_nat R + i)) ;;
                  gotFinish) w2)
      ++ ((if vm_trace then [Close; DeleteTrace] else [])
          ++ [Final; DeleteModel]).
Proof.
  do 2 eexists. unfold run_simple. rewrite ?trace_bind.
  destruct vm_trace; reflexivity.
Qed.

(** A view that ignores evaluations, captures and completion tests sees
    the set-up and the tear-down of the simple driver only. *)
Lemma run_simple_view {A} (g : Event -> option A) (vm_trace : bool)
      (R N : nat) (argv : list string) (w : World DutState) :
  (forall p, g (Eval p) = None) ->
  (forall t, g (Dump t) = None) ->
  (forall b, g (GotFinish b) = None) ->
  collect g (trace (run_simple vm_trace R N argv w))
  = collect g ([CommandArgs argv; NewModel]
               ++ (if vm_trace
                   then [TraceEverOn true; NewTrace; AttachTrace 99;
                         Open "tb_mlow_codec_verilator.vcd"]
                   else []))
    ++ collect g ((if vm_trace then [Close; DeleteTrace] else [])
                  ++ [Final; DeleteModel]).
Proof.
  intros He Hd Hc.
  destruct (run_simple_trace vm_trace R N argv w) as (w1 & w2 & Ht).
  rewrite Ht, !collect_app. unfold for_loop, for_break.
  rewrite for_from_silent, for_break_from_silent; [reflexivity| |].
  - intros i w'. rewrite !trace_bind, !collect_app.
    destruct vm_trace; cbn; now rewrite He, ?Hd, Hc.
  - intros i w'. rewrite !trace_bind, !collect_app.
    destruct vm_trace; cbn; now rewrite He, ?Hd.
Qed.

Lemma run_simple_result (vm_trace : bool) (R N : nat) (argv : list string)
      (w : World DutState) :
  result (run_simple vm_trace R N argv w) = 0.
Proof. unfold run_simple. rewrite ?result_bind. reflexivity. Qed.

(** ** The loops keep the failure flag of the VCD writer *)

Lemma run_formal_vcd_failed (R N : nat) (stim : Z -> option Z)
      (argv : list string) (w : World DutState) :
  vcd_failed (world (run_formal R N stim argv w))
  = vcd_failed w || negb (open_ok "formal_testbench.vcd") || negb close_ok.
Proof.
  unfold run_formal. rewrite !world_bind. rewrite formal_cleanup_run.
  cbn [world fst snd vcd_failed]. f_equal.
  set (b := vcd_failed w || negb (open_ok "formal_testbench.vcd")).
  assert (H1 : vcd_failed (world (for_loop R (fun i => stepCycle i)
                                    (world (formal_init argv w)))) = b).
  { apply (for_from_view (fun _ => @None unit)
             (fun _ w' => vcd_failed w' = b) (fun _ => [])
             (fun i => stepCycle i) 0).
    - intros c w' _ Hb. split; [exact Hb | reflexivity].
    - lia.
    - now rewrite formal_init_run. }
  apply (for_from_view (fun _ => @None unit)
           (fun _ w' => vcd_failed w' = b) (fun _ => [])
           (formal_body R stim) 0).
  - intros i w' _ Hb. split; [body_view; exact Hb | body_view; reflexivity].
  - lia.
  - exact H1.
Qed.

(** ** Range of the timestamps *)

Lemma formal_timestamps_fit_int (argv : list string) (w : World DutState)
      (t : Z) :
  In t (dumps (trace (main_formal argv w))) -> 0 <= t < 2 ^ 31.
Proof.
  unfold main_formal. rewrite formal_dumps. unfold upto. rewrite range_In.
  change (2 ^ 31) with 2147483648. lia.
Qed.

Lemma comprehensive_dumps (budget : Z) (argv : list string)
      (w : World DutState) :
  exists n : nat,
    dumps (trace (run_comprehensive budget argv w)) = upto n
    /\ Z.of_nat n <= Z.max 0 budget.
Proof.
  destruct (run_comprehensive_run budget argv w) as (n & Hrun & _ & Hmax & _).
  exists n. split; [|exact Hmax].
  rewrite Hrun. unfold dumps, trace. cbn [snd].
  rewrite !collect_app, !collect_flat_map. cbn [collect app].
  now rewrite flat_map_single, app_nil_r.
Qed.

Lemma comprehensive_timestamps_fit_int (argv : list string)
      (w : World DutState) (t : Z) :
  In t (dumps (trace (main_comprehensive argv w))) -> 0 <= t < 2 ^ 31.
Proof.
  unfold main_comprehensive.
  destruct (comprehensive_dumps 50000 argv w) as (n & Hd & Hn).
  rewrite Hd. unfold upto. rewrite range_In.
  change (2 ^ 31) with 2147483648. lia.
Qed.

(** ** The end-of-run calls of the three drivers *)

Lemma simple_teardown (vm_trace : bool) (R N : nat) (argv : list string)
      (w : World DutState) :
  teardown (trace (run_simple vm_trace R N argv w))
  = (if vm_trace then [Close; DeleteTrace] else []) ++ [Final; DeleteModel].
Proof.
  unfold teardown. rewrite run_simple_view by reflexivity.
  now destruct vm_trace.
Qed.

Lemma comprehensive_teardown (budget : Z) (argv : list string)
      (w : World DutState) :
  teardown (trace (run_comprehensive budget argv w))
  = [Close; DeleteTrace; DeleteModel].
Proof.
  unfold teardown.
  destruct (run_comprehensive_run budget argv w) as (n & Hrun & _).
  rewrite Hrun. unfold trace. cbn [snd].
  rewrite !collect_app, !collect_flat_map. cbn [collect app].
  now rewrite flat_map_nil.
Qed.

Lemma formal_teardown (R N : nat) (stim : Z -> option Z) (argv : list string)
      (w : World DutState) :
  teardown (trace (run_formal R N stim argv w))
  = [Close; DeleteTrace; DeleteModel].
Proof.
  unfold teardown.
  rewrite (run_formal_view _ (fun _ _ => True) (fun _ _ => True)
             (fun _ => []) (fun _ => [])).
  - rewrite formal_init_run. cbn [trace snd collect app].
    now rewrite !flat_map_nil.
  - exact I.
  - intros c w' _ _. split; [exact I | body_view; reflexivity].
  - intros; exact I.
  - intros i w' _ _. split; [exact I | body_view; reflexivity].
Qed.

(** ** The formal driver never tests for completion *)

Lemma formal_checks (R N : nat) (stim : Z -> option Z) (argv : list string)
      (w : World DutState) :
  checks (trace (run_formal R N stim argv w)) = [].
Proof.
  unfold checks.
  rewrite (run_formal_view _ (fun _ _ => True) (fun _ _ => True)
             (fun _ => []) (fun _ => [])).
  - rewrite formal_init_run. cbn [trace snd collect app].
    now rewrite !flat_map_nil.
  - exact I.
  - intros c w' _ _. split; [exact I | body_view; reflexivity].
  - intros; exact I.
  - intros i w' _ _. split; [exact I | body_view; reflexivity].
Qed.

(** ** The claims *)

(** C1, as amended.  A run of the formal driver with reset-hold [R] and
    cycle budget [N] (the driver has no completion test) makes exactly
    [R + N] [stepCycle] invocations, for the cycle indices [0 .. R+N-1] in
    order: [R] under reset, then [N] in the run loop.  It produces exactly
    [2 (R + N)] trace captures whose timestamps are exactly
    [0 .. 2 (R + N) - 1], each the successor of the one before. *)
Theorem formal_run_cycles (R N : nat) (stim : Z -> option Z) (argv : list string)
        (w w0 : World DutState) :
  let l := trace (run_formal R N stim argv w) in
  clock_view l
  = flat_map (fun c => clock_view (trace (stepCycle c w0))) (upto (R + N))
  /\ dumps l = upto (2 * (R + N))
  /\ List.length (dumps l) = (2 * (R + N))%nat
  /\ consecutive (dumps l).
Proof.
  cbv zeta. rewrite formal_clock_view, formal_dumps.
  repeat split.
  - apply range_length.
  - apply range_consecutive.
Qed.


(** C3.  In a run of the formal driver with reset-hold [R], the reset input
    is written to its asserted level (0, the line is active low) before the
    first cycle; both evaluations of each of the cycles [0 .. R-1] see it
    asserted, with the clock low then high and a capture after each; it is
    then written to 1 exactly once, after cycle [R-1] and before the run
    loop, and every later evaluation sees it deasserted: it is never
    written again. *)
Theorem reset_held_then_released (R N : nat) (stim : Z -> option Z)
        (argv : list string) (w : World DutState) :
  let l := trace (run_formal R N stim argv w) in
  reset_view l
  = [RWrite 0]
    ++ flat_map (fun c => [REval 0 0; RDump (2 * c);
                           REval 0 1; RDump (2 * c + 1)]) (upto R)
    ++ [RWrite 1]
    ++ flat_map (fun c => [REval 1 0; RDump (2 * c);
                           REval 1 1; RDump (2 * c + 1)])
                (range (Z.of_nat R) N)
  /\ writes reset_n_i l = [0; 1].
Proof.
  cbv zeta. split; [apply formal_reset_view | apply formal_reset_writes].
Qed.

(** C4.  For every loop index [i] and each of the two windows of the
    formal driver: when [w_start <= i < w_stop], [computeInputs i] yields
    [w_base + (i - w_start)] and the input is marked valid; when [i] lies
    outside both windows the input is marked invalid.  For the window
    [{10, 26, 0x1234}]: [computeInputs 15] yields [0x1239], valid, and
    [computeInputs 9], [computeInputs 26] mark the input invalid. *)
Theorem computeInputs_windows :
  (forall i w, In w formal_windows -> w_start w <= i < w_stop w ->
     computeInputs i = Some (w_base w + (i - w_start w)))
  /\ (forall i, (forall w, In w formal_windows -> ~ (w_start w <= i < w_stop w)) ->
        computeInputs i = None)
  /\ computeInputs 15 = Some 0x1239
  /\ computeInputs 9 = None
  /\ computeInputs 26 = None
  /\ (forall i, computeInputs i = stimulus formal_windows i)
  /\ (forall i (s : World DutState),
        carries (computeInputs i)
                (tb (world (applyInputs (computeInputs i) s)) audio_valid_i)
                (tb (world (applyInputs (computeInputs i) s)) audio_data_i)).
Proof.
  assert (Hin : forall i w, In w formal_windows -> w_start w <= i < w_stop w ->
                  computeInputs i = Some (w_base w + (i - w_start w))).
  { intros i w [<-|[<-|[]]] Hi; cbn [w_start w_stop w_base] in *;
      unfold computeInputs;
      destruct (Z.geb_spec i 10), (Z.ltb_spec i 26),
               (Z.geb_spec i 50), (Z.ltb_spec i 66);
      cbn [andb]; try reflexivity; lia. }
  assert (Hout : forall i,
             (forall w, In w formal_windows -> ~ (w_start w <= i < w_stop w)) ->
             computeInputs i = None).
  { intros i H.
    pose proof (H (mkWindow 10 26 0x1234) (or_introl eq_refl)) as H1.
    pose proof (H (mkWindow 50 66 0x5678) (or_intror (or_introl eq_refl))) as H2.
    cbn [w_start w_stop] in H1, H2. unfold computeInputs.
    destruct (Z.geb_spec i 10), (Z.ltb_spec i 26),
             (Z.geb_spec i 50), (Z.ltb_spec i 66);
      cbn [andb]; try reflexivity; lia. }
  repeat split; try assumption; try reflexivity.
  - intro i. unfold computeInputs, stimulus, formal_windows, in_window.
    cbn [w_start w_stop w_base]. rewrite !Z.geb_leb. reflexivity.
  - intros i s. rewrite applyInputs_run.
    destruct (computeInputs i); cbn; auto.
Qed.

(** C5, as amended.  In the run loop of the formal driver, for every loop
    index [i], the driver first steps the clock for that cycle and only
    then computes the stimulus for [i] and writes it to the inputs.  Hence
    both evaluations of cycle [i + 1] see the inputs computed for [i], and
    both evaluations of the first cycle of the run loop see the idle values
    written at set-up. *)
Theorem stimulus_after_clock (R N : nat) (stim : Z -> option Z)
        (argv : list string) (w : World DutState) (i : nat) :
  (S i < N)%nat ->
  let l := trace (run_formal R N stim argv w) in
  (forall s, trace (formal_body R stim (Z.of_nat i) s)
             = trace (stepCycle (Z.of_nat i + Z.of_nat R) s)
               ++ match stim (Z.of_nat i) with
                  | Some d => [Write audio_data_i d; Write audio_valid_i 1]
                  | None => [Write audio_valid_i 0]
                  end)
  /\ (exists valid data,
        nth_error (audio_view l) (2 * (R + S i)) = Some (valid, data)
        /\ nth_error (audio_view l) (2 * (R + S i) + 1) = Some (valid, data)
        /\ carries (stim (Z.of_nat i)) valid data)
  /\ nth_error (audio_view l) (2 * R) = Some (0, 0)
  /\ nth_error (audio_view l) (2 * R + 1) = Some (0, 0).
Proof.
  intros Hi l. subst l. rewrite formal_audio_view. split; [|split].
  - intro s. rewrite formal_body_run, applyInputs_run.
    now destruct (stim (Z.of_nat i)).
  - exists (fst (audio_before stim (S i))), (snd (audio_before stim (S i))).
    rewrite <- surjective_pairing.
    destruct (pairs_nth
                (fun c => if c <? Z.of_nat R then (0, 0)
                          else audio_before stim (Z.to_nat (c - Z.of_nat R)))
                (fun c => if c <? Z.of_nat R then (0, 0)
                          else audio_before stim (Z.to_nat (c - Z.of_nat R)))
                (R + N) 0 (R + S i)) as [H0 H1]; [lia|].
    unfold upto. rewrite H0, H1.
    destruct (Z.ltb_spec (0 + Z.of_nat (R + S i)) (Z.of_nat R)); [lia|].
    replace (Z.to_nat (0 + Z.of_nat (R + S i) - Z.of_nat R)) with (S i) by lia.
    repeat split. apply audio_before_carries.
  - destruct (pairs_nth
                (fun c => if c <? Z.of_nat R then (0, 0)
                          else audio_before stim (Z.to_nat (c - Z.of_nat R)))
                (fun c => if c <? Z.of_nat R then (0, 0)
                          else audio_before stim (Z.to_nat (c - Z.of_nat R)))
                (R + N) 0 R) as [H0 H1]; [lia|].
    unfold upto. rewrite H0, H1.
    destruct (Z.ltb_spec (0 + Z.of_nat R) (Z.of_nat R)); [lia|].
    replace (Z.to_nat (0 + Z.of_nat R - Z.of_nat R)) with O by lia.
    split; reflexivity.
Qed.

(** C6, as amended.  In the comprehensive driver, when the model raises the
    finish flag during the evaluation of cycle [k], with [k] strictly below
    the cycle budget, the run ends with cycle [k] instead of going on to
    the budget: exactly the cycles [0 .. k] are evaluated and captured, and
    [k + 1] is reported.  The completion test is the head of the [while]
    loop: it is made once on entry, before cycle 0, and then once after the
    evaluation and capture of each cycle, before the next cycle begins; it
    answers [false] before each of the cycles [0 .. k] and [true] after
    cycle [k].  The formal driver never tests for completion: whatever the
    model reports, it runs all the cycles of its reset loop and of its
    budget. *)
Theorem early_termination (budget : Z) (k R N : nat) (stim : Z -> option Z)
        (argv : list string) (w : World DutState) :
  Z.of_nat k < budget ->
  (forall j, (j <= k)%nat -> finish_flag (evals_from j (tb w) (dut w)) = false) ->
  finish_flag (evals_from (S k) (tb w) (dut w)) = true ->
  let r := run_comprehensive budget argv w in
  result r = Some 0
  /\ trace r
     = [CommandArgs argv; NewModel; TraceEverOn true; NewTrace; AttachTrace 99;
        Open (vcd_filename argv)]
       ++ flat_map (fun c => [GotFinish false; Eval (tb w); Dump c])
                   (upto (S k))
       ++ [GotFinish true; Close; DeleteTrace; DeleteModel;
           Print [Text "Comprehensive testbench simulation completed after ";
                  Num (Z.of_nat k + 1); Text " cycles."; Newline]]
  /\ dumps (trace r) = upto (S k)
  /\ List.length (evals (trace r)) = S k
  /\ checks (trace r) = repeat false (S k) ++ [true]
  /\ checks (trace (run_formal R N stim argv w)) = []
  /\ dumps (trace (run_formal R N stim argv w)) = upto (2 * (R + N)).
Proof.
  intros Hk Hlow Hup r. subst r.
  rewrite formal_checks, formal_dumps.
  destruct (run_comprehensive_run budget argv w)
    as (n & Hrun & Hfalse & Hmax & Hstop).
  assert (n = S k) as ->.
  { destruct (Nat.lt_trichotomy n (S k)) as [Hlt|[Heq|Hgt]]; [|exact Heq|].
    - destruct Hstop as [Hs|Hs]; [|lia].
      rewrite Hlow in Hs by lia. discriminate.
    - rewrite Hfalse in Hup by lia. discriminate. }
  rewrite Hup in Hrun. rewrite Hrun. unfold result, trace. cbn [fst snd].
  replace (Z.of_nat k + 1) with (Z.of_nat (S k)) by lia.
  split; [reflexivity|]. split; [reflexivity|].
  unfold dumps, evals, checks.
  rewrite !collect_app, !collect_flat_map. cbn [collect app].
  rewrite flat_map_single, app_nil_r.
  rewrite length_app, flat_map_const_length, flat_map_const_repeat.
  unfold upto. rewrite range_length. cbn [List.length].
  repeat split. lia.
Qed.

(** C7, as amended.  Each driver returns exit code 0 whenever [main] runs
    to its end, whatever happened when the VCD writer opened or closed its
    file: the drivers do not look at the outcome of either call.  The
    formal driver prints a fixed completion message, the simple driver
    prints nothing, and the comprehensive driver prints a completion
    message that reports its loop counter. *)
Theorem exit_code_always_zero (vm_trace : bool) (argv : list string)
        (w : World DutState) :
  result (main_formal argv w) = 0
  /\ result (main_simple vm_trace argv w) = 0
  /\ result (main_comprehensive argv w) = Some 0
  /\ vcd_failed (world (main_formal argv w))
     = vcd_failed w || negb (open_ok "formal_testbench.vcd") || negb close_ok
  /\ vcd_failed (world (main_comprehensive argv w))
     = vcd_failed w || negb (open_ok (vcd_filename argv)) || negb close_ok
  /\ prints (trace (main_formal argv w))
     = [[Text "Formal verification completed successfully"; Newline]]
  /\ prints (trace (main_simple vm_trace argv w)) = []
  /\ exists n : nat,
       prints (trace (main_comprehensive argv w))
       = [[Text "Comprehensive testbench simulation completed after ";
           Num (Z.of_nat n); Text " cycles."; Newline]]
       /\ List.length (evals (trace (main_comprehensive argv w))) = n.
Proof.
  unfold main_formal, main_simple, main_comprehensive.
  destruct (run_formal_phases 5 200 computeInputs argv w) as (_ & Hres & _).
  destruct (run_comprehensive_run 50000 argv w) as (n & Hrun & _).
  rewrite Hres, run_simple_result, run_formal_vcd_failed, Hrun.
  do 5 (split; [reflexivity|]).
  split; [|split].
  - unfold prints.
    rewrite (run_formal_view _ (fun _ _ => True) (fun _ _ => True)
               (fun _ => []) (fun _ => [])).
    + rewrite formal_init_run. cbn [trace snd collect app].
      now rewrite !flat_map_nil.
    + exact I.
    + intros c w' _ _. split; [exact I | body_view; reflexivity].
    + intros; exact I.
    + intros i w' _ _. split; [exact I | body_view; reflexivity].
  - unfold prints. rewrite run_simple_view by reflexivity.
    now destruct vm_trace.
  - exists n. unfold prints, evals, trace. cbn [snd].
    rewrite !collect_app, !collect_flat_map. cbn [collect app].
    rewrite flat_map_nil, length_app, flat_map_const_length.
    unfold upto. rewrite range_length. cbn [List.length].
    split; [reflexivity | lia].
Qed.

(** C9, as amended.  The end-of-run calls are made in this order.  Simple
    driver: when tracing is compiled in, the trace sink is closed and
    released first; then the model's [final()] is invoked; then the model
    is released.  Comprehensive and formal drivers: the trace sink is
    closed and released, then the model is released; [final()] is never
    invoked. *)
Theorem teardown_order (vm_trace : bool) (R N : nat) (budget : Z)
        (stim : Z -> option Z) (argv : list string) (w : World DutState) :
  teardown (trace (run_simple vm_trace R N argv w))
  = (if vm_trace then [Close; DeleteTrace] else []) ++ [Final; DeleteModel]
  /\ teardown (trace (run_comprehensive budget argv w))
     = [Close; DeleteTrace; DeleteModel]
  /\ teardown (trace (run_formal R N stim argv w))
     = [Close; DeleteTrace; DeleteModel].
Proof.
  split; [apply simple_teardown|].
  split; [apply comprehensive_teardown | apply formal_teardown].
Qed.

(** C10.  In the comprehensive driver the cycle count of the completion
    message is exactly the number of [eval()] calls and exactly the number
    of trace captures of the run: the loop is a sequence of iterations,
    each made of one completion test, one evaluation and one capture whose
    timestamp is the counter, and the counter goes up by one per
    iteration and is changed nowhere else. *)
Theorem comprehensive_cycle_count (budget : Z) (argv : list string)
        (w : World DutState) :
  exists (n : nat) (last : bool),
    let l := trace (run_comprehensive budget argv w) in
    l = [CommandArgs argv; NewModel; TraceEverOn true; NewTrace; AttachTrace 99;
         Open (vcd_filename argv)]
        ++ flat_map (fun c => [GotFinish false; Eval (tb w); Dump c]) (upto n)
        ++ [GotFinish last; Close; DeleteTrace; DeleteModel;
            Print [Text "Comprehensive testbench simulation completed after ";
                   Num (Z.of_nat n); Text " cycles."; Newline]]
    /\ prints l
       = [[Text "Comprehensive testbench simulation completed after ";
           Num (Z.of_nat n); Text " cycles."; Newline]]
    /\ List.length (evals l) = n
    /\ List.length (dumps l) = n
    /\ dumps l = upto n
    /\ result (run_comprehensive budget argv w) = Some 0.
Proof.
  destruct (run_comprehensive_run budget argv w) as (n & Hrun & _).
  exists n, (finish_flag (evals_from n (tb w) (dut w))).
  cbv zeta. rewrite Hrun. unfold result, trace. cbn [fst snd].
  split; [reflexivity|].
  unfold prints, evals, dumps.
  rewrite !collect_app, !collect_flat_map. cbn [collect app].
  rewrite flat_map_nil, flat_map_single, !app_nil_r.
  rewrite flat_map_const_length.
  unfold upto. rewrite !range_length.
  repeat split.
Qed.

(** ** Further properties: the loops of the simple driver *)

Lemma evals_from_add (n k : nat) :
  forall p m, evals_from (n + k) p m = evals_from k p (evals_from n p m).
Proof.
  induction n as [|n IH]; intros p m; [reflexivity|].
  cbn [Nat.add evals_from]. apply IH.
Qed.

Lemma simple_reset_run (vm : bool) (n : nat) :
  forall a p d f,
    for_from a n (fun i => eval ;; when vm (dump i)) (mkWorld p d f)
    = (tt, mkWorld p (evals_from n p d) f,
       flat_map (simple_step vm p) (range a n)).
Proof.
  destruct vm;
    (induction n as [|n IH]; intros a p d f; [reflexivity|];
     cbn [for_from range flat_map evals_from];
     unfold bind at 1; unfold bind at 1;
     unfold eval at 1; cbn [tb dut vcd_failed];
     unfold when at 1; try unfold dump at 1; try unfold emit at 1;
     try unfold ret at 1;
     cbv beta iota; rewrite IH; reflexivity).
Qed.

Lemma simple_run_loop (n : nat) :
  forall p d,
  exists k : nat,
    (k <= n)%nat
    /\ (n <> O -> k <> O)
    /\ (forall j, (0 < j < k)%nat -> finish_flag (evals_from j p d) = false)
    /\ ((k < n)%nat -> finish_flag (evals_from k p d) = true)
    /\ forall vm offset a f,
         for_break_from a n
           (fun i => eval ;; when vm (dump (offset + i)) ;; gotFinish)
           (mkWorld p d f)
         = (tt, mkWorld p (evals_from k p d) f,
            simple_run_events vm p offset a k
              (finish_flag (evals_from k p d))).
Proof.
  induction n as [|n IH]; intros p d.
  - exists O. split; [lia|]. split; [intro H; now elim H|].
    split; [intros j Hj; lia|]. split; [lia|]. reflexivity.
  - destruct (finish_flag (eval_dut p d)) eqn:E.
    + exists 1%nat. split; [lia|]. split; [discriminate|].
      split; [intros j Hj; lia|]. split; [intros _; exact E|].
      intros vm offset a f. cbn [for_break_from evals_from].
      unfold bind, eval, when, dump, emit, gotFinish, ret.
      destruct vm; cbn; rewrite E, ?Z.add_0_r; reflexivity.
    + destruct (IH p (eval_dut p d)) as (k & Hle & Hnz & Hlow & Hup & Hrun).
      destruct k as [|m].
      * assert (n = O) as ->.
        { destruct n; [reflexivity|]. exfalso. now apply Hnz. }
        exists 1%nat. split; [lia|]. split; [discriminate|].
        split; [intros j Hj; lia|]. split; [lia|].
        intros vm offset a f. cbn [for_break_from evals_from].
        unfold bind, eval, when, dump, emit, gotFinish, ret.
        destruct vm; cbn; rewrite E, ?Z.add_0_r; reflexivity.
      * exists (S (S m)). split; [lia|]. split; [discriminate|].
        split; [|split].
        -- intros [|[|j]] Hj; [lia | exact E |].
           cbn [evals_from]. apply (Hlow (S j)). lia.
        -- intros Hk. cbn [evals_from]. apply Hup. lia.
        -- intros vm offset a f. cbn [for_break_from].
           unfold bind at 1. unfold bind at 1. unfold bind at 1.
           unfold eval at 1. cbn [tb dut vcd_failed].
           assert (Hg : forall w', gotFinish w'
                      = (finish_flag (dut w'), w',
                         [GotFinish (finish_flag (dut w'))]))
             by reflexivity.
           assert (Hw : forall t w', when vm (dump t) w'
                      = (tt, w', if vm then [Dump t] else []))
             by (intros; destruct vm; reflexivity).
           rewrite Hw, Hg. cbn [tb dut vcd_failed]. rewrite E, Hrun.
           cbn [simple_run_events evals_from range flat_map].
           unfold simple_step.
           replace (a + 1 + Z.of_nat m) with (a + Z.of_nat (S m)) by lia.
           cbn [app]. rewrite <- ?app_assoc. reflexivity.
Qed.

(** A run of the simple driver, call by call: [k] is the number of
    iterations its run loop makes. *)
Lemma run_simple_run (R N : nat) (argv : list string) (w : World DutState) :
  exists k : nat,
    (k <= N)%nat
    /\ (N <> O -> k <> O)
    /\ (forall j, (0 < j < k)%nat ->
          finish_flag (evals_from (R + j) (tb w) (dut w)) = false)
    /\ ((k < N)%nat -> finish_flag (evals_from (R + k) (tb w) (dut w)) = true)
    /\ forall vm,
         run_simple vm R N argv w
         = (0,
            mkWorld (tb w) (evals_from (R + k) (tb w) (dut w))
              (if vm
               then vcd_failed w
                    || negb (open_ok "tb_mlow_codec_verilator.vcd")
                    || negb close_ok
               else vcd_failed w),
            ([CommandArgs argv; NewModel]
             ++ (if vm
                 then [TraceEverOn true; NewTrace; AttachTrace 99;
                       Open "tb_mlow_codec_verilator.vcd"]
                 else []))
            ++ flat_map (simple_step vm (tb w)) (upto R)
            ++ simple_run_events vm (tb w) (Z.of_nat R) 0 k
                 (finish_flag (evals_from (R + k) (tb w) (dut w)))
            ++ ((if vm then [Close; DeleteTrace] else [])
                ++ [Final; DeleteModel])).
Proof.
  destruct w as [p d f]. cbn [tb dut vcd_failed].
  destruct (simple_run_loop N p (evals_from R p d))
    as (k & Hle & Hnz & Hlow & Hup & Hrun).
  exists k. split; [exact Hle|]. split; [exact Hnz|].
  split; [intros j Hj; rewrite evals_from_add; now apply Hlow|].
  split; [intros Hk; rewrite evals_from_add; now apply Hup|].
  intros vm. rewrite evals_from_add.
  unfold run_simple.
  set (L1 := for_loop R _). set (L2 := for_break N _).
  assert (H1 : forall f', L1 (mkWorld p d f')
                 = (tt, mkWorld p (evals_from R p d) f',
                    flat_map (simple_step vm p) (upto R))).
  { intro f'. subst L1. unfold for_loop. apply simple_reset_run. }
  assert (H2 : forall f', L2 (mkWorld p (evals_from R p d) f')
                 = (tt, mkWorld p (evals_from k p (evals_from R p d)) f',
                    simple_run_events vm p (Z.of_nat R) 0 k
                      (finish_flag (evals_from k p (evals_from R p d))))).
  { intro f'. subst L2. unfold for_break. apply Hrun. }
  clearbody L1 L2.
  destruct vm; unfold bind, when, emit, open, close, ret;
    cbn [tb dut vcd_failed]; rewrite H1, H2; cbn [tb dut vcd_failed app];
    rewrite ?app_nil_r; reflexivity.
Qed.

(** What the views show of the calls of the run loop. *)
Lemma simple_run_events_evals (vm : bool) (p : Ports) (offset a : Z)
      (k : nat) (b : bool) :
  evals (simple_run_events vm p offset a k b) = repeat p k.
Proof.
  destruct k as [|m]; [reflexivity|].
  unfold evals, simple_run_events, simple_step.
  rewrite collect_app, collect_flat_map.
  replace (repeat p (S m)) with (repeat p m ++ [p])
    by (rewrite <- repeat_cons; reflexivity).
  f_equal.
  - rewrite <- (range_length m a) at 2. rewrite <- flat_map_const_repeat.
    apply flat_map_ext. intro i. now destruct vm.
  - now destruct vm.
Qed.

Lemma simple_run_events_checks (vm : bool) (p : Ports) (offset a : Z)
      (k : nat) (b : bool) :
  checks (simple_run_events vm p offset a k b)
  = match k with O => [] | S m => repeat false m ++ [b] end.
Proof.
  destruct k as [|m]; [reflexivity|].
  unfold checks, simple_run_events, simple_step.
  rewrite collect_app, collect_flat_map. f_equal.
  - rewrite <- (range_length m a) at 2. rewrite <- flat_map_const_repeat.
    apply flat_map_ext. intro i. now destruct vm.
  - now destruct vm.
Qed.

Lemma simple_run_events_dumps (p : Ports) (offset a : Z) (k : nat) (b : bool) :
  dumps (simple_run_events true p offset a k b) = range (offset + a) k.
Proof.
  destruct k as [|m]; [reflexivity|].
  unfold dumps, simple_run_events, simple_step.
  rewrite collect_app, collect_flat_map. cbn [collect app].
  replace (S m) with (m + 1)%nat by lia. rewrite range_app. f_equal.
  - rewrite (flat_map_range_ext _ (fun i => [i + offset]))
      by (intros i _; now rewrite Z.add_comm).
    rewrite (flat_map_range_shift (fun i => [i]) offset m a).
    rewrite flat_map_single. now rewrite (Z.add_comm a offset).
  - cbn [range]. f_equal. lia.
Qed.

Lemma simple_step_dumps (p : Ports) (n : nat) (a : Z) :
  dumps (flat_map (simple_step true p) (range a n)) = range a n.
Proof.
  unfold dumps. rewrite collect_flat_map.
  rewrite (flat_map_range_ext _ (fun i => [i])) by reflexivity.
  apply flat_map_single.
Qed.

Lemma simple_step_evals (vm : bool) (p : Ports) (n : nat) (a : Z) :
  evals (flat_map (simple_step vm p) (range a n)) = repeat p n.
Proof.
  unfold evals. rewrite collect_flat_map.
  rewrite <- (range_length n a) at 2. rewrite <- flat_map_const_repeat.
  apply flat_map_ext. intro i. now destruct vm.
Qed.

(** ** Further properties: the trace file of the comprehensive driver *)

Lemma prefix_empty (s : string) : prefix "" s = true.
Proof. now destruct s. Qed.

Lemma substring_whole (s : string) : substring 0 (String.length s) s = s.
Proof. induction s as [|c s IH]; [reflexivity | simpl; now rewrite IH]. Qed.

Lemma find_vcd_file_none (args : list string) :
  (forall a, In a args -> prefix "+vcd_file=" a = false) ->
  find_vcd_file args = None.
Proof.
  induction args as [|a args IH]; intro H; [reflexivity|].
  cbn [find_vcd_file]. rewrite (H a) by now left.
  apply IH. intros b Hb. apply H. now right.
Qed.

Lemma find_vcd_file_first (pre post : list string) (name : string) :
  (forall a, In a pre -> prefix "+vcd_file=" a = false) ->
  find_vcd_file (pre ++ ("+vcd_file=" ++ name)%string :: post) = Some name.
Proof.
  induction pre as [|a pre IH]; intro H.
  - cbn [app find_vcd_file].
    assert (Hp : prefix "+vcd_file=" ("+vcd_file=" ++ name) = true)
      by (simpl; apply prefix_empty).
    rewrite Hp. f_equal. simpl. rewrite Nat.sub_0_r. apply substring_whole.
  - cbn [app find_vcd_file]. rewrite (H a) by now left.
    apply IH. intros b Hb. apply H. now right.
Qed.

Lemma comprehensive_opens (budget : Z) (argv : list string)
      (w : World DutState) :
  opens (trace (run_comprehensive budget argv w)) = [vcd_filename argv].
Proof.
  destruct (run_comprehensive_run budget argv w) as (n & Hrun & _).
  rewrite Hrun. unfold opens, trace. cbn [snd].
  rewrite !collect_app, !collect_flat_map. cbn [collect app].
  now rewrite flat_map_nil.
Qed.

(** X1.  When no argument after [argv[0]] starts with [+vcd_file=], the
    comprehensive driver opens [tb_mlow_codec_comprehensive.vcd], and no
    other file. *)
Theorem vcd_file_default (budget : Z) (argv : list string)
        (w : World DutState) :
  (forall a, In a (tl argv) -> prefix "+vcd_file=" a = false) ->
  opens (trace (run_comprehensive budget argv w))
  = ["tb_mlow_codec_comprehensive.vcd"].
Proof.
  intro H. rewrite comprehensive_opens. unfold vcd_filename.
  now rewrite find_vcd_file_none.
Qed.

(** X2.  The first argument after [argv[0]] that starts with [+vcd_file=]
    names the one file the comprehensive driver opens: the name is what
    follows the prefix, the empty name included.  [argv[0]] and every
    later argument are not looked at. *)
Theorem vcd_file_argument (budget : Z) (arg0 name : string)
        (pre post : list string) (w : World DutState) :
  (forall a, In a pre -> prefix "+vcd_file=" a = false) ->
  opens (trace (run_comprehensive budget
                  (arg0 :: pre ++ ("+vcd_file=" ++ name)%string :: post) w))
  = [name].
Proof.
  intro H. rewrite comprehensive_opens. unfold vcd_filename. cbn [tl].
  now rewrite find_vcd_file_first.
Qed.

(** ** Further properties: the loop of the comprehensive driver *)

Lemma comprehensive_views (budget : Z) (argv : list string)
      (w : World DutState) :
  exists n : nat,
    (forall j, (j < n)%nat -> finish_flag (evals_from j (tb w) (dut w)) = false)
    /\ Z.of_nat n <= Z.max 0 budget
    /\ (finish_flag (evals_from n (tb w) (dut w)) = true \/ budget <= Z.of_nat n)
    /\ evals (trace (run_comprehensive budget argv w)) = repeat (tb w) n
    /\ dumps (trace (run_comprehensive budget argv w)) = upto n
    /\ checks (trace (run_comprehensive budget argv w))
       = repeat false n ++ [finish_flag (evals_from n (tb w) (dut w))]
    /\ prints (trace (run_comprehensive budget argv w))
       = [[Text "Comprehensive testbench simulation completed after ";
           Num (Z.of_nat n); Text " cycles."; Newline]]
    /\ sink_view (trace (run_comprehensive budget argv w))
       = [SOpen (vcd_filename argv)] ++ map SDump (upto n) ++ [SClose; SDelete]
    /\ port_writes (trace (run_comprehensive budget argv w)) = [].
Proof.
  destruct (run_comprehensive_run budget argv w)
    as (n & Hrun & Hlow & Hmax & Hstop).
  exists n. do 3 (split; [assumption|]).
  rewrite Hrun. unfold evals, dumps, checks, prints, sink_view, port_writes, trace.
  cbn [snd]. rewrite !collect_app, !collect_flat_map. cbn [collect app].
  rewrite flat_map_single, !flat_map_nil, !app_nil_r.
  rewrite !flat_map_const_repeat. unfold upto. rewrite range_length.
  repeat split.
Qed.

(** X3.  When the finish flag stays down for the first [budget]
    evaluations, the comprehensive driver runs exactly [budget] cycles, with
    timestamps [0 .. budget-1], and reports [budget]. *)
Theorem comprehensive_budget_exhausted (budget : nat) (argv : list string)
        (w : World DutState) :
  (forall j, (j < budget)%nat ->
     finish_flag (evals_from j (tb w) (dut w)) = false) ->
  let l := trace (run_comprehensive (Z.of_nat budget) argv w) in
  List.length (evals l) = budget
  /\ dumps l = upto budget
  /\ prints l
     = [[Text "Comprehensive testbench simulation completed after ";
         Num (Z.of_nat budget); Text " cycles."; Newline]].
Proof.
  intros Hlow l. subst l.
  destruct (comprehensive_views (Z.of_nat budget) argv w)
    as (n & _ & Hmax & Hstop & He & Hd & _ & Hp & _).
  assert (n = budget) as ->.
  { destruct (Nat.lt_trichotomy n budget) as [Hlt|[Heq|Hgt]]; [|exact Heq|lia].
    destruct Hstop as [Hs|Hs]; [|lia]. rewrite Hlow in Hs by lia. discriminate. }
  rewrite He, Hd, Hp, repeat_length. repeat split.
Qed.

(** X4.  When the finish flag is already up on entry, or the budget is not
    positive, the comprehensive driver evaluates nothing and captures
    nothing; it still opens and closes its trace file and reports 0
    cycles. *)
Theorem comprehensive_no_cycle (budget : Z) (argv : list string)
        (w : World DutState) :
  finish_flag (dut w) = true \/ budget <= 0 ->
  let l := trace (run_comprehensive budget argv w) in
  evals l = []
  /\ sink_view l = [SOpen (vcd_filename argv); SClose; SDelete]
  /\ prints l
     = [[Text "Comprehensive testbench simulation completed after ";
         Num 0; Text " cycles."; Newline]]
  /\ result (run_comprehensive budget argv w) = Some 0.
Proof.
  intros H l. subst l.
  destruct (comprehensive_views budget argv w)
    as (n & Hlow & Hmax & _ & He & _ & _ & Hp & Hs & _).
  assert (n = O) as ->.
  { destruct n as [|n]; [reflexivity|]. destruct H as [H|H]; [|lia].
    assert (H0 : finish_flag (dut w) = false) by (apply (Hlow O); lia).
    congruence. }
  rewrite He, Hp, Hs.
  destruct (run_comprehensive_run budget argv w) as (n' & Hrun & _).
  rewrite Hrun. repeat split.
Qed.

(** X5.  Whatever the model does, the number [n] of cycles the
    comprehensive driver runs and reports never exceeds the budget, and is
    the first count of evaluations at which the finish flag is up or the
    budget is reached: every completion test but the last answers
    [false]. *)
Theorem comprehensive_stop_reason (budget : Z) (argv : list string)
        (w : World DutState) :
  exists n : nat,
    let l := trace (run_comprehensive budget argv w) in
    prints l
    = [[Text "Comprehensive testbench simulation completed after ";
        Num (Z.of_nat n); Text " cycles."; Newline]]
    /\ List.length (evals l) = n
    /\ Z.of_nat n <= Z.max 0 budget
    /\ (forall j, (j < n)%nat ->
          finish_flag (evals_from j (tb w) (dut w)) = false)
    /\ (finish_flag (evals_from n (tb w) (dut w)) = true
        \/ budget <= Z.of_nat n)
    /\ checks l = repeat false n ++ [finish_flag (evals_from n (tb w) (dut w))].
Proof.
  destruct (comprehensive_views budget argv w)
    as (n & Hlow & Hmax & Hstop & He & _ & Hc & Hp & _).
  exists n. cbv zeta. rewrite He, Hc, Hp, repeat_length. repeat split; assumption.
Qed.

(** ** Further properties: the simple driver *)

(** A view that shows captures only shows one capture per iteration. *)
Lemma simple_steps_captures {A} (g : Event -> option A) (h : Z -> A)
      (p : Ports) (n : nat) (a : Z) :
  (forall q, g (Eval q) = None) ->
  (forall t, g (Dump t) = Some (h t)) ->
  collect g (flat_map (simple_step true p) (range a n)) = map h (range a n).
Proof.
  intros He Hd. rewrite collect_flat_map.
  rewrite (flat_map_ext _ (fun i => [h i])).
  - induction (range a n) as [|x l IH]; [reflexivity | simpl; now rewrite IH].
  - intro i. cbn. now rewrite He, Hd.
Qed.

Lemma simple_run_events_captures {A} (g : Event -> option A) (h : Z -> A)
      (p : Ports) (offset a : Z) (k : nat) (b : bool) :
  (forall q, g (Eval q) = None) ->
  (forall t, g (Dump t) = Some (h t)) ->
  (forall c, g (GotFinish c) = None) ->
  collect g (simple_run_events true p offset a k b)
  = map h (range (offset + a) k).
Proof.
  intros He Hd Hc. destruct k as [|m]; [reflexivity|].
  unfold simple_run_events, simple_step.
  rewrite collect_app, collect_flat_map.
  rewrite (flat_map_ext _ (fun i => [h (i + offset)])).
  - rewrite (flat_map_range_shift (fun i => [h i]) offset m a).
    replace (S m) with (m + 1)%nat by lia.
    rewrite range_app, map_app, (Z.add_comm a offset). f_equal.
    cbn. rewrite He, Hd, Hc. do 2 f_equal. lia.
  - intro i. cbn. rewrite He, Hd, Hc. now rewrite (Z.add_comm i offset).
Qed.

(** Without tracing the same iterations show nothing in such a view. *)
Lemma simple_untraced_silent {A} (g : Event -> option A)
      (p : Ports) (offset a : Z) (n k : nat) (b : bool) :
  (forall q, g (Eval q) = None) ->
  (forall c, g (GotFinish c) = None) ->
  collect g (flat_map (simple_step false p) (range a n)) = []
  /\ collect g (simple_run_events false p offset a k b) = [].
Proof.
  intros He Hc. split.
  - rewrite collect_flat_map, (flat_map_ext _ (fun _ => [])).
    + apply flat_map_nil.
    + intro i. cbn. now rewrite He.
  - destruct k as [|m]; [reflexivity|].
    unfold simple_run_events, simple_step.
    rewrite collect_app, collect_flat_map, (flat_map_ext _ (fun _ => [])).
    + rewrite flat_map_nil. cbn. now rewrite He, Hc.
    + intro i. cbn. now rewrite He, Hc.
Qed.

(** Removing the calls on the VCD writer from the traced iterations gives
    the untraced ones. *)
Lemma simple_without_sink (p : Ports) (offset a : Z) (n k : nat) (b : bool) :
  without_sink (flat_map (simple_step true p) (range a n))
  = flat_map (simple_step false p) (range a n)
  /\ without_sink (simple_run_events true p offset a k b)
     = simple_run_events false p offset a k b.
Proof.
  unfold without_sink. split.
  - now rewrite collect_flat_map.
  - destruct k as [|m]; [reflexivity|].
    unfold simple_run_events, simple_step.
    now rewrite collect_app, collect_flat_map.
Qed.

(** The views of a run of the simple driver; [k] is the number of
    iterations of its run loop. *)
Lemma simple_views (R N : nat) (argv : list string) (w : World DutState) :
  exists k : nat,
    (k <= N)%nat
    /\ (N <> O -> k <> O)
    /\ (forall j, (0 < j < k)%nat ->
          finish_flag (evals_from (R + j) (tb w) (dut w)) = false)
    /\ ((k < N)%nat -> finish_flag (evals_from (R + k) (tb w) (dut w)) = true)
    /\ (forall vm,
          evals (trace (run_simple vm R N argv w)) = repeat (tb w) (R + k)
          /\ checks (trace (run_simple vm R N argv w))
             = match k with
               | O => []
               | S m => repeat false m
                        ++ [finish_flag (evals_from (R + k) (tb w) (dut w))]
               end
          /\ port_writes (trace (run_simple vm R N argv w)) = []
          /\ dut (world (run_simple vm R N argv w))
             = evals_from (R + k) (tb w) (dut w)
          /\ result (run_simple vm R N argv w) = 0)
    /\ dumps (trace (run_simple true R N argv w)) = upto (R + k)
    /\ sink_view (trace (run_simple true R N argv w))
       = [SOpen "tb_mlow_codec_verilator.vcd"]
         ++ map SDump (upto (R + k)) ++ [SClose; SDelete]
    /\ sink_view (trace (run_simple false R N argv w)) = []
    /\ trace (run_simple false R N argv w)
       = without_sink (trace (run_simple true R N argv w)).
Proof.
  destruct (run_simple_run R N argv w) as (k & Hle & Hnz & Hlow & Hup & Hrun).
  exists k. do 4 (split; [assumption|]).
  split; [|split; [|split; [|split]]].
  - intro vm. rewrite (Hrun vm). unfold result, world, trace.
    cbn [fst snd dut]. split; [|split; [|split; [|split]]]; try reflexivity.
    + unfold upto. rewrite !app_assoc.
      unfold evals at 1. rewrite !collect_app. fold evals.
      rewrite simple_step_evals, simple_run_events_evals.
      rewrite repeat_app.
      destruct vm; unfold evals; cbn [collect app]; now rewrite ?app_nil_r.
    + unfold checks at 1. rewrite !collect_app. fold checks.
      rewrite simple_run_events_checks.
      unfold checks. rewrite collect_flat_map.
      rewrite (flat_map_ext _ (fun _ => [])), flat_map_nil
        by (intro i; now destruct vm).
      destruct vm; cbn [collect app]; now rewrite ?app_nil_r.
    + unfold port_writes. rewrite !collect_app, collect_flat_map.
      rewrite (flat_map_ext _ (fun _ => [])), flat_map_nil
        by (intro i; now destruct vm).
      destruct k as [|m]; [now destruct vm|].
      unfold simple_run_events. rewrite collect_app, collect_flat_map.
      rewrite (flat_map_ext _ (fun _ => [])), flat_map_nil
        by (intro i; now destruct vm).
      now destruct vm.
  - rewrite (Hrun true). unfold trace. cbn [snd].
    unfold dumps, upto. rewrite !collect_app.
    rewrite (simple_steps_captures _ (fun t => t)),
            (simple_run_events_captures _ (fun t => t)) by reflexivity.
    cbn [collect app]. rewrite !map_id, app_nil_r.
    rewrite range_app, Z.add_0_l, Z.add_0_r. reflexivity.
  - rewrite (Hrun true). unfold trace. cbn [snd].
    unfold sink_view, upto. rewrite !collect_app.
    rewrite (simple_steps_captures _ SDump),
            (simple_run_events_captures _ SDump) by reflexivity.
    cbn [collect app].
    rewrite range_app, map_app, <- app_assoc, Z.add_0_l, Z.add_0_r.
    reflexivity.
  - rewrite (Hrun false). unfold trace. cbn [snd].
    unfold sink_view. rewrite !collect_app.
    destruct (simple_untraced_silent
                (fun e => match e with
                          | Open name => Some (SOpen name)
                          | Dump t => Some (SDump t)
                          | Close => Some SClose
                          | DeleteTrace => Some SDelete
                          | _ => None
                          end) (tb w) (Z.of_nat R) 0 R k
                (finish_flag (evals_from (R + k) (tb w) (dut w))))
      as [H1 H2]; try reflexivity.
    unfold upto. rewrite H1, H2. reflexivity.
  - rewrite (Hrun false), (Hrun true). unfold trace. cbn [snd].
    destruct (simple_without_sink (tb w) (Z.of_nat R) 0 R k
                (finish_flag (evals_from (R + k) (tb w) (dut w))))
      as [H1 H2].
    unfold without_sink in *. rewrite !collect_app. unfold upto.
    rewrite H1, H2. reflexivity.
Qed.

(** X6.  With tracing compiled in, the simple driver opens its trace file
    once, makes exactly one capture per evaluation, with the timestamps
    0, 1, 2, ... running on from the reset loop into the run loop, and then
    closes and releases the writer.  The reset loop is never cut short and
    the run loop evaluates once before it first looks at the finish flag:
    with reset bound [R] and run bound [N] there are at least [R + 1]
    evaluations ([R] when [N = 0]) and at most [R + N]. *)
Theorem simple_capture_per_evaluation (R N : nat) (argv : list string)
        (w : World DutState) :
  exists n : nat,
    let l := trace (run_simple true R N argv w) in
    List.length (evals l) = n
    /\ sink_view l
       = [SOpen "tb_mlow_codec_verilator.vcd"]
         ++ map SDump (upto n) ++ [SClose; SDelete]
    /\ (R + Nat.min 1 N <= n <= R + N)%nat.
Proof.
  destruct (simple_views R N argv w)
    as (k & Hle & Hnz & _ & _ & Hvm & _ & Hs & _).
  destruct (Hvm true) as (He & _).
  exists (R + k)%nat. cbv zeta. rewrite He, Hs, repeat_length.
  repeat split; lia.
Qed.

(** X7.  When the finish flag is down at each completion test of the run
    loop but possibly the last, the simple driver evaluates exactly
    [R + N] times, whether tracing is compiled in or not; with tracing the
    timestamps are [0 .. R+N-1]. *)
Theorem simple_never_finished (R N : nat) (argv : list string)
        (w : World DutState) :
  (forall j, (0 < j < N)%nat ->
     finish_flag (evals_from (R + j) (tb w) (dut w)) = false) ->
  (forall vm, List.length (evals (trace (run_simple vm R N argv w)))
              = (R + N)%nat)
  /\ dumps (trace (run_simple true R N argv w)) = upto (R + N).
Proof.
  intro Hdown.
  destruct (simple_views R N argv w)
    as (k & Hle & Hnz & _ & Hup & Hvm & Hd & _).
  assert (k = N) as ->.
  { destruct (Nat.eq_dec k N) as [Heq|Hne]; [exact Heq|].
    assert (Hlt : (k < N)%nat) by lia.
    assert (k <> O) by (apply Hnz; lia).
    rewrite Hdown in Hup by lia. now specialize (Hup Hlt). }
  split; [|exact Hd].
  intro vm. destruct (Hvm vm) as (He & _). now rewrite He, repeat_length.
Qed.

(** X8.  When the model raises the finish flag during iteration [k] of the
    run loop of the simple driver ([k < N], the flag down at the tests of
    the iterations before), the run loop ends with that iteration: there
    are exactly [R + k + 1] evaluations, and the completion tests answer
    [false] [k] times and then [true].  What the flag does during the reset
    loop plays no part: it is not tested there. *)
Theorem simple_early_termination (R N k : nat) (argv : list string)
        (w : World DutState) :
  (k < N)%nat ->
  (forall j, (0 < j <= k)%nat ->
     finish_flag (evals_from (R + j) (tb w) (dut w)) = false) ->
  finish_flag (evals_from (R + S k) (tb w) (dut w)) = true ->
  (forall vm,
     List.length (evals (trace (run_simple vm R N argv w))) = (R + S k)%nat
     /\ checks (trace (run_simple vm R N argv w)) = repeat false k ++ [true])
  /\ dumps (trace (run_simple true R N argv w)) = upto (R + S k).
Proof.
  intros Hk Hdown Hraised.
  destruct (simple_views R N argv w)
    as (k' & Hle & Hnz & Hlow & Hup & Hvm & Hd & _).
  assert (k' = S k) as ->.
  { assert (k' <> O) by (apply Hnz; lia).
    destruct (Nat.lt_trichotomy k' (S k)) as [Hlt|[Heq|Hgt]]; [|exact Heq|].
    - rewrite Hdown in Hup by lia. assert (Hkn : (k' < N)%nat) by lia.
      now specialize (Hup Hkn).
    - rewrite (Hlow (S k)) in Hraised by lia. discriminate. }
  split; [|exact Hd].
  intro vm. destruct (Hvm vm) as (He & Hc & _).
  now rewrite He, Hc, repeat_length, Hraised.
Qed.

(** X9.  Compiling the simple driver without [VM_TRACE] changes nothing but
    the calls on the VCD writer: the trace of the untraced run is the trace
    of the traced run with those calls removed, the untraced run makes no
    call on the writer at all, and both runs leave the model in the same
    state and return 0. *)
Theorem simple_tracing_transparent (R N : nat) (argv : list string)
        (w : World DutState) :
  trace (run_simple false R N argv w)
  = without_sink (trace (run_simple true R N argv w))
  /\ sink_view (trace (run_simple false R N argv w)) = []
  /\ dut (world (run_simple false R N argv w))
     = dut (world (run_simple true R N argv w))
  /\ result (run_simple false R N argv w) = 0
  /\ result (run_simple true R N argv w) = 0.
Proof.
  destruct (simple_views R N argv w)
    as (k & _ & _ & _ & _ & Hvm & _ & _ & Hs & Hw).
  destruct (Hvm true) as (_ & _ & _ & Hdt & Hrt).
  destruct (Hvm false) as (_ & _ & _ & Hdf & Hrf).
  rewrite Hdt, Hdf. repeat split; assumption.
Qed.

(** X10.  The simple and the comprehensive driver never write an input
    port of the model: every evaluation of a run sees the ports as they
    were when the run began. *)
Theorem drivers_never_poke (vm_trace : bool) (R N : nat) (budget : Z)
        (argv : list string) (w : World DutState) :
  port_writes (trace (run_simple vm_trace R N argv w)) = []
  /\ port_writes (trace (run_comprehensive budget argv w)) = []
  /\ Forall (fun p => p = tb w) (evals (trace (run_simple vm_trace R N argv w)))
  /\ Forall (fun p => p = tb w) (evals (trace (run_comprehensive budget argv w))).
Proof.
  destruct (simple_views R N argv w) as (k & _ & _ & _ & _ & Hvm & _).
  destruct (Hvm vm_trace) as (He & _ & Hp & _).
  destruct (comprehensive_views budget argv w)
    as (n & _ & _ & _ & He' & _ & _ & _ & _ & Hp').
  rewrite He, He'. repeat split; try assumption.
  - apply Forall_forall. intros p Hin. now apply repeat_spec in Hin.
  - apply Forall_forall. intros p Hin. now apply repeat_spec in Hin.
Qed.

(** ** Further properties: the formal driver *)

Lemma phases_map {A} (h : Z -> A) (n : nat) :
  forall a, flat_map (fun c => [h (c * 2); h (c * 2 + 1)]) (range a n)
            = map h (range (a * 2) (2 * n)).
Proof.
  intro a. rewrite <- phases_range.
  induction (range a n) as [|x l IH]; [reflexivity | simpl; now rewrite IH].
Qed.

Lemma formal_sink_view (R N : nat) (stim : Z -> option Z)
      (argv : list string) (w : World DutState) :
  sink_view (trace (run_formal R N stim argv w))
  = [SOpen "formal_testbench.vcd"]
    ++ map SDump (upto (2 * (R + N))) ++ [SClose; SDelete].
Proof.
  unfold sink_view.
  rewrite (run_formal_view _ (fun _ _ => True) (fun _ _ => True)
             (fun c => [SDump (c * 2); SDump (c * 2 + 1)])
             (fun i => [SDump ((i + Z.of_nat R) * 2);
                        SDump ((i + Z.of_nat R) * 2 + 1)])).
  - rewrite formal_init_run. cbn [trace snd collect app]. unfold upto.
    rewrite (flat_map_range_shift
               (fun c => [SDump (c * 2); SDump (c * 2 + 1)])).
    rewrite !(phases_map SDump).
    replace (2 * (R + N))%nat with (2 * R + 2 * N)%nat by lia.
    rewrite range_app, map_app, <- app_assoc.
    replace ((0 + Z.of_nat R) * 2) with (0 + Z.of_nat (2 * R)) by lia.
    reflexivity.
  - exact I.
  - intros c w' _ _. split; [exact I | body_view; reflexivity].
  - intros; exact I.
  - intros i w' _ _. split; [exact I | body_view; reflexivity].
Qed.

(** X11.  The formal and the comprehensive driver use the VCD writer in
    this order and no other: the file is opened once, before the first
    capture; the captures follow with the timestamps 0, 1, 2, ... in order;
    then the writer is closed once and released, and nothing is captured
    after that. *)
Theorem trace_sink_protocol (R N : nat) (stim : Z -> option Z) (budget : Z)
        (argv : list string) (w : World DutState) :
  sink_view (trace (run_formal R N stim argv w))
  = [SOpen "formal_testbench.vcd"]
    ++ map SDump (upto (2 * (R + N))) ++ [SClose; SDelete]
  /\ exists n : nat,
       sink_view (trace (run_comprehensive budget argv w))
       = [SOpen (vcd_filename argv)] ++ map SDump (upto n) ++ [SClose; SDelete]
       /\ Z.of_nat n <= Z.max 0 budget.
Proof.
  split; [apply formal_sink_view|].
  destruct (comprehensive_views budget argv w)
    as (n & _ & Hmax & _ & _ & _ & _ & _ & Hs & _).
  exists n. split; assumption.
Qed.

Lemma pair_repeat {A B} (c : B) (l : list A) :
  flat_map (fun _ => [c; c]) l = repeat c (2 * List.length l).
Proof.
  induction l as [|x l IH]; [reflexivity|].
  cbn [flat_map List.length app].
  replace (2 * S (List.length l))%nat with (S (S (2 * List.length l))) by lia.
  cbn [repeat]. now rewrite IH.
Qed.

Lemma formal_config_view (R N : nat) (stim : Z -> option Z)
      (argv : list string) (w : World DutState) :
  config_view (trace (run_formal R N stim argv w))
  = repeat config_values (2 * (R + N)).
Proof.
  unfold config_view.
  rewrite (run_formal_view _
             (fun _ w' => map (tb w') config_ports = config_values)
             (fun _ w' => map (tb w') config_ports = config_values)
             (fun _ => [config_values; config_values])
             (fun _ => [config_values; config_values])).
  - rewrite formal_init_run. cbn [trace snd collect app].
    rewrite app_nil_r, !pair_repeat, <- repeat_app.
    unfold upto. rewrite !range_length. f_equal. lia.
  - rewrite formal_init_run. reflexivity.
  - intros c w' _ Hc. split.
    + body_view. exact Hc.
    + body_view. unfold poke; cbn.
      change (map (tb w') config_ports = config_values) in Hc.
      cbn in Hc. now rewrite Hc.
  - intros w' Hc. exact Hc.
  - intros i w' _ Hc. split.
    + body_view; exact Hc.
    + change (map (tb w') config_ports = config_values) in Hc. cbn in Hc.
      body_view; unfold poke; cbn; now rewrite Hc.
Qed.

Lemma formal_config_writes (R N : nat) (stim : Z -> option Z)
      (argv : list string) (w : World DutState) (q : Port) :
  In q config_ports ->
  writes q (trace (run_formal R N stim argv w))
  = writes q (trace (formal_init argv w)).
Proof.
  intro Hq. unfold writes.
  rewrite (run_formal_view _ (fun _ _ => True) (fun _ _ => True)
             (fun _ => []) (fun _ => [])).
  - rewrite !flat_map_nil.
    assert (Hr : Port_eqb reset_n_i q = false)
      by (destruct Hq as [<-|[<-|[<-|[<-|[<-|[<-|[<-|[]]]]]]]]; reflexivity).
    cbn [collect app]. rewrite Hr. now rewrite !app_nil_r.
  - exact I.
  - intros c w' _ _. split; [exact I|].
    destruct Hq as [<-|[<-|[<-|[<-|[<-|[<-|[<-|[]]]]]]]];
      body_view; reflexivity.
  - intros; exact I.
  - intros i w' _ _. split; [exact I|].
    destruct Hq as [<-|[<-|[<-|[<-|[<-|[<-|[<-|[]]]]]]]];
      body_view; reflexivity.
Qed.

(** X12.  The handshake and mode inputs of the formal driver
    ([audio_ready_i], [frame_bus_ready_i], [frame_ready_i],
    [packet_ready_i], [encode_mode_i], [bitrate_sel_i], [bandwidth_sel_i])
    are each written exactly once, at set-up, and every evaluation of the
    run, under reset and after, sees them at 1, 1, 1, 1, 1, 5, 1. *)
Theorem formal_config_inputs_constant (R N : nat) (stim : Z -> option Z)
        (argv : list string) (w : World DutState) :
  let l := trace (run_formal R N stim argv w) in
  config_view l = repeat config_values (2 * (R + N))
  /\ map (fun q => writes q l) config_ports
     = map (fun v => [v]) config_values.
Proof.
  cbv zeta. split; [apply formal_config_view|].
  unfold config_ports at 1. cbn [map].
  rewrite !formal_config_writes by (unfold config_ports; simpl; tauto).
  rewrite formal_init_run. reflexivity.
Qed.

(** X13.  When the stimulus block of the formal driver lowers
    [audio_valid_i] for loop index [i], it leaves [audio_data_i] alone: the
    evaluations of the next cycle see the input invalid with the data value
    that the evaluations of cycle [i] saw. *)
Theorem formal_data_held (R N : nat) (stim : Z -> option Z)
        (argv : list string) (w : World DutState) (i : nat) :
  (S i < N)%nat ->
  stim (Z.of_nat i) = None ->
  let l := trace (run_formal R N stim argv w) in
  exists valid data,
    nth_error (audio_view l) (2 * (R + i)) = Some (valid, data)
    /\ nth_error (audio_view l) (2 * (R + i) + 1) = Some (valid, data)
    /\ nth_error (audio_view l) (2 * (R + S i)) = Some (0, data)
    /\ nth_error (audio_view l) (2 * (R + S i) + 1) = Some (0, data).
Proof.
  intros Hi Hnone l. subst l. rewrite formal_audio_view.
  exists (fst (audio_before stim i)), (snd (audio_before stim i)).
  rewrite <- surjective_pairing.
  destruct (pairs_nth
              (fun c => if c <? Z.of_nat R then (0, 0)
                        else audio_before stim (Z.to_nat (c - Z.of_nat R)))
              (fun c => if c <? Z.of_nat R then (0, 0)
                        else audio_before stim (Z.to_nat (c - Z.of_nat R)))
              (R + N) 0 (R + i)) as [H0 H1]; [lia|].
  destruct (pairs_nth
              (fun c => if c <? Z.of_nat R then (0, 0)
                        else audio_before stim (Z.to_nat (c - Z.of_nat R)))
              (fun c => if c <? Z.of_nat R then (0, 0)
                        else audio_before stim (Z.to_nat (c - Z.of_nat R)))
              (R + N) 0 (R + S i)) as [H2 H3]; [lia|].
  unfold upto. rewrite H0, H1, H2, H3.
  destruct (Z.ltb_spec (0 + Z.of_nat (R + i)) (Z.of_nat R)); [lia|].
  destruct (Z.ltb_spec (0 + Z.of_nat (R + S i)) (Z.of_nat R)); [lia|].
  replace (Z.to_nat (0 + Z.of_nat (R + i) - Z.of_nat R)) with i by lia.
  replace (Z.to_nat (0 + Z.of_nat (R + S i) - Z.of_nat R)) with (S i) by lia.
  cbn [audio_before]. rewrite Hnone. repeat split.
Qed.

(** ** Further properties: the stimulus of the formal driver *)

Lemma some_inj {A} (a b : A) : Some a = Some b -> a = b.
Proof. congruence. Qed.

(** X14.  [computeInputs] marks the input valid exactly on the loop indices
    [10 .. 25] and [50 .. 65], and every data value it drives lies in
    [0x1234 .. 0x1243] or [0x5678 .. 0x5687], hence fits 16 bits. *)
Theorem computeInputs_valid_range (i : Z) :
  (computeInputs i <> None <-> (10 <= i < 26 \/ 50 <= i < 66))
  /\ forall v, computeInputs i = Some v ->
       (0x1234 <= v <= 0x1243 \/ 0x5678 <= v <= 0x5687) /\ 0 <= v < 2 ^ 16.
Proof.
  unfold computeInputs.
  destruct (Z.geb_spec i 10), (Z.ltb_spec i 26),
           (Z.geb_spec i 50), (Z.ltb_spec i 66); cbn [andb];
    (split; [split; [intro Hne | intro Hr] | intros v Hv]);
    try lia; try discriminate; try (now elim Hne);
    apply some_inj in Hv; change (2 ^ 16) with 65536; lia.
Qed.

(** X15.  The data values of [computeInputs] go up with the loop index and
    never repeat: of two valid indices the later one always gets the
    strictly greater value, so two different valid indices, in the same
    window or not, never get the same value; and when [i] and [i + 1] are
    both valid the value goes up by exactly one. *)
Theorem computeInputs_ramp (i j v v' : Z) :
  computeInputs i = Some v ->
  computeInputs j = Some v' ->
  (j = i + 1 -> v' = v + 1) /\ (i < j -> v < v') /\ (v = v' -> i = j).
Proof.
  unfold computeInputs.
  destruct (Z.geb_spec i 10), (Z.ltb_spec i 26),
           (Z.geb_spec i 50), (Z.ltb_spec i 66),
           (Z.geb_spec j 10), (Z.ltb_spec j 26),
           (Z.geb_spec j 50), (Z.ltb_spec j 66); cbn [andb];
    intros Hv Hv'; try discriminate Hv; try discriminate Hv';
    apply some_inj in Hv; apply some_inj in Hv'; lia.
Qed.

(** ** Further properties: range of the timestamps *)

(** X16.  With the loop bounds the three drivers are written with, every
    timestamp handed to the VCD writer, by any of them and whatever the
    model does, lies between 0 and 49999, hence below [2^31]: the [int]
    arithmetic of the timestamps cannot overflow. *)
Theorem timestamps_fit_int (argv : list string) (w : World DutState) (t : Z) :
  In t (dumps (trace (main_formal argv w)))
  \/ In t (dumps (trace (main_simple true argv w)))
  \/ In t (dumps (trace (main_comprehensive argv w))) ->
  0 <= t <= 49999 /\ t < 2 ^ 31.
Proof.
  unfold main_formal, main_simple, main_comprehensive.
  rewrite formal_dumps.
  destruct (simple_views 10 (Z.to_nat 10000) argv w)
    as (k & Hk & _ & _ & _ & _ & Hd & _).
  destruct (comprehensive_dumps 50000 argv w) as (n & Hn & Hmax).
  rewrite Hd, Hn. unfold upto. rewrite !range_In.
  change (2 ^ 31) with 2147483648. lia.
Qed.

End Drivers.

(** ** The drivers at work on the counting model *)

Lemma counter_evals_from (j : nat) :
  forall (p : Ports) (m : nat), evals_from nat counter_eval j p m = (j + m)%nat.
Proof.
  induction j as [|j IH]; intros p m; [reflexivity|].
  cbn [evals_from]. rewrite IH. unfold counter_eval. lia.
Qed.

(** The formal driver as it is written: 5 cycles under reset and a budget of
    200 cycles give 410 captures, not 400, and their timestamps run up to
    409. *)
Lemma formal_budget_counterexample :
  let l := trace (main_formal nat counter_eval always_ok true ["sim"] counter_world) in
  dumps l = upto 410
  /\ List.length (dumps l) <> (2 * 200)%nat
  /\ dumps l <> upto (2 * 200).
Proof.
  cbv zeta. unfold main_formal. rewrite formal_dumps.
  change (2 * (5 + 200))%nat with 410%nat.
  split; [reflexivity|]. split.
  - unfold upto. rewrite range_length. lia.
  - intro H. apply (f_equal (@List.length Z)) in H.
    unfold upto in H. rewrite !range_length in H. lia.
Qed.

(** Loop index 15 lies in the first window of the formal driver, loop index
    30 lies in neither. *)
Lemma computeInputs_windows_witness :
  computeInputs 15 = Some (0x1234 + (15 - 10)) /\ computeInputs 30 = None.
Proof.
  destruct (computeInputs_windows nat) as (Hin & Hout & _).
  split.
  - apply (Hin 15 (mkWindow 10 26 0x1234)).
    + simpl. auto.
    + simpl. lia.
  - apply Hout. intros w [<-|[<-|[]]]; simpl; lia.
Defined.

(** The formal driver as it is written: both evaluations of run cycle 10
    (cycle 15 of the run) see the input invalid, although loop index 10 is
    the first index of the first window. *)
Lemma stimulus_before_clock_counterexample :
  let l := trace (main_formal nat counter_eval always_ok true ["sim"] counter_world) in
  computeInputs 10 = Some 0x1234
  /\ nth_error (audio_view l) (2 * (5 + 10)) = Some (0, 0)
  /\ nth_error (audio_view l) (2 * (5 + 10) + 1) = Some (0, 0)
  /\ ~ carries (computeInputs 10) 0 0.
Proof.
  cbv zeta. split; [reflexivity|]. split; [vm_compute; reflexivity|].
  split; [vm_compute; reflexivity|].
  intros [H _]. discriminate H.
Qed.

(** Run cycle 10 of the formal driver sees what was computed for loop
    index 9, which lies before the first window. *)
Lemma stimulus_after_clock_witness :
  let l := trace (main_formal nat counter_eval always_ok true ["sim"] counter_world) in
  (S 9 < 200)%nat
  /\ exists valid data,
       nth_error (audio_view l) (2 * (5 + S 9)) = Some (valid, data)
       /\ nth_error (audio_view l) (2 * (5 + S 9) + 1) = Some (valid, data)
       /\ carries (computeInputs (Z.of_nat 9)) valid data.
Proof.
  assert (H : (S 9 < 200)%nat) by lia.
  split; [exact H|].
  exact (proj1 (proj2 (stimulus_after_clock nat counter_eval always_ok true
                         5 200 computeInputs ["sim"] counter_world 9 H))).
Defined.

(** A model that finishes during cycle 42, under a budget of 1000 cycles. *)
Lemma early_termination_witness :
  let r := run_comprehensive nat counter_eval (counter_finish (Some 42%nat))
             always_ok true 1000 ["sim"] counter_world in
  42 < 1000
  /\ result r = Some 0
  /\ dumps (trace r) = upto 43
  /\ List.length (evals (trace r)) = 43%nat
  /\ checks (trace r) = repeat false 43 ++ [true]
  /\ checks (trace (main_formal nat counter_eval always_ok true ["sim"]
                      counter_world)) = [].
Proof.
  assert (Hk : Z.of_nat 42 < 1000) by lia.
  assert (Hlow : forall j, (j <= 42)%nat ->
            counter_finish (Some 42%nat)
              (evals_from nat counter_eval j (tb counter_world)
                          (dut counter_world)) = false).
  { intros j Hj. rewrite counter_evals_from. simpl.
    apply Nat.ltb_ge. lia. }
  assert (Hup : counter_finish (Some 42%nat)
                  (evals_from nat counter_eval 43 (tb counter_world)
                              (dut counter_world)) = true)
    by reflexivity.
  destruct (early_termination nat counter_eval (counter_finish (Some 42%nat))
              always_ok true 1000 42 5 200 computeInputs ["sim"]
              counter_world Hk Hlow Hup)
    as (Hres & _ & Hd & He & Hc & Hf & _).
  split; [lia|]. repeat split; assumption.
Defined.

(** The formal driver as it is written, on a model whose finish flag is up
    from its 43rd evaluation on: the driver makes no completion test and
    all its 410 evaluations.  The comprehensive driver, on a model that
    finishes during cycle 0: one cycle, but two completion tests, the first
    of them before any evaluation. *)
Lemma completion_test_counterexample :
  let lf := trace (main_formal nat counter_eval always_ok true ["sim"]
                     counter_world) in
  let lc := trace (run_comprehensive nat counter_eval
                     (counter_finish (Some 0%nat)) always_ok true 1000
                     ["sim"] counter_world) in
  counter_finish (Some 42%nat)
    (evals_from nat counter_eval 43 (tb counter_world) (dut counter_world))
  = true
  /\ List.length (evals lf) = 410%nat
  /\ checks lf = []
  /\ List.length (evals lc) = 1%nat
  /\ checks lc = [false; true].
Proof.
  cbv zeta. split; [reflexivity|].
  split; [vm_compute; reflexivity|].
  split; [unfold main_formal; apply formal_checks|].
  split; vm_compute; reflexivity.
Qed.

(** The formal driver returns 0 although the VCD writer could not open its
    file. *)
Lemma exit_zero_on_open_failure :
  let r := main_formal nat counter_eval never_ok true ["sim"] counter_world in
  never_ok "formal_testbench.vcd" = false
  /\ vcd_failed (world r) = true
  /\ result r = 0.
Proof.
  cbv zeta. unfold main_formal.
  rewrite run_formal_vcd_failed.
  destruct (run_formal_phases nat counter_eval never_ok true 5 200
              computeInputs ["sim"] counter_world) as (_ & Hres & _).
  rewrite Hres. repeat split.
Qed.

(** The simple driver with tracing compiled in, on a model that finishes
    during the first cycle of the run loop: [close()] is call number 29 and
    [final()] call number 31.  The comprehensive driver, whose model has a
    [final()] as well, never calls it. *)
Lemma finalize_after_close_counterexample :
  let l := trace (main_simple nat counter_eval (counter_finish (Some 10%nat))
                    always_ok true true ["sim"] counter_world) in
  let l' := trace (main_comprehensive nat counter_eval
                     (counter_finish (Some 2%nat)) always_ok true ["sim"]
                     counter_world) in
  index_of is_close l = Some 29%nat
  /\ index_of is_final l = Some 31%nat
  /\ teardown l = [Close; DeleteTrace; Final; DeleteModel]
  /\ teardown l' = [Close; DeleteTrace; DeleteModel].
Proof.
  cbv zeta. split; [vm_compute; reflexivity|].
  split; [vm_compute; reflexivity|].
  unfold main_simple, main_comprehensive.
  now rewrite simple_teardown, comprehensive_teardown.
Qed.

(** ** Further properties at work on the counting model *)

(** No argument names a trace file; [argv[0]] is not looked at even when it
    starts with [+vcd_file=]. *)
Lemma vcd_file_default_witness :
  opens (trace (run_comprehensive nat counter_eval (counter_finish None)
                  always_ok true 3 ["+vcd_file=zero.vcd"; "+verbose"]
                  counter_world))
  = ["tb_mlow_codec_comprehensive.vcd"].
Proof.
  apply (vcd_file_default nat counter_eval (counter_finish None) always_ok
           true 3 ["+vcd_file=zero.vcd"; "+verbose"] counter_world).
  intros a [<-|[]]. reflexivity.
Defined.

(** The first of two [+vcd_file=] arguments decides. *)
Lemma vcd_file_argument_witness :
  opens (trace (run_comprehensive nat counter_eval (counter_finish None)
                  always_ok true 3
                  ["sim"; "+verbose"; "+vcd_file=out.vcd";
                   "+vcd_file=late.vcd"]
                  counter_world))
  = ["out.vcd"].
Proof.
  apply (vcd_file_argument nat counter_eval (counter_finish None) always_ok
           true 3 "sim" "out.vcd" ["+verbose"] ["+vcd_file=late.vcd"]
           counter_world).
  intros a [<-|[]]. reflexivity.
Defined.

(** A model that never finishes, under a budget of 7 cycles. *)
Lemma comprehensive_budget_exhausted_witness :
  let l := trace (run_comprehensive nat counter_eval (counter_finish None)
                    always_ok true (Z.of_nat 7) ["sim"] counter_world) in
  List.length (evals l) = 7%nat
  /\ dumps l = upto 7
  /\ prints l
     = [[Text "Comprehensive testbench simulation completed after ";
         Num (Z.of_nat 7); Text " cycles."; Newline]].
Proof.
  apply (comprehensive_budget_exhausted nat counter_eval (counter_finish None)
           always_ok true 7 ["sim"] counter_world).
  intros j Hj. reflexivity.
Defined.

(** A model whose finish flag is up before the first evaluation. *)
Lemma comprehensive_no_cycle_witness :
  let w := mkWorld idle_ports 1%nat false in
  let r := run_comprehensive nat counter_eval (counter_finish (Some 0%nat))
             always_ok true 50000 ["sim"] w in
  evals (trace r) = []
  /\ sink_view (trace r)
     = [SOpen "tb_mlow_codec_comprehensive.vcd"; SClose; SDelete]
  /\ prints (trace r)
     = [[Text "Comprehensive testbench simulation completed after ";
         Num 0; Text " cycles."; Newline]]
  /\ result r = Some 0.
Proof.
  apply (comprehensive_no_cycle nat counter_eval (counter_finish (Some 0%nat))
           always_ok true 50000 ["sim"] (mkWorld idle_ports 1%nat false)).
  left. reflexivity.
Defined.

(** A model that never finishes, in the simple driver with 10 reset
    iterations and a run bound of 20. *)
Lemma simple_never_finished_witness :
  (forall vm,
     List.length (evals (trace (run_simple nat counter_eval
                                  (counter_finish None) always_ok true vm
                                  10 20 ["sim"] counter_world)))
     = (10 + 20)%nat)
  /\ dumps (trace (run_simple nat counter_eval (counter_finish None)
                     always_ok true true 10 20 ["sim"] counter_world))
     = upto (10 + 20).
Proof.
  apply (simple_never_finished nat counter_eval (counter_finish None)
           always_ok true 10 20 ["sim"] counter_world).
  intros j Hj. reflexivity.
Defined.

(** A model that raises its finish flag during the fourth evaluation, in
    the middle of the reset loop of the simple driver: the ten reset
    iterations still run, and the run loop makes one iteration. *)
Lemma simple_early_termination_witness :
  (forall vm,
     List.length (evals (trace (run_simple nat counter_eval
                                  (counter_finish (Some 3%nat)) always_ok
                                  true vm 10 50 ["sim"] counter_world)))
     = (10 + 1)%nat
     /\ checks (trace (run_simple nat counter_eval
                         (counter_finish (Some 3%nat)) always_ok true vm
                         10 50 ["sim"] counter_world))
        = repeat false 0 ++ [true])
  /\ dumps (trace (run_simple nat counter_eval (counter_finish (Some 3%nat))
                     always_ok true true 10 50 ["sim"] counter_world))
     = upto (10 + 1).
Proof.
  apply (simple_early_termination nat counter_eval
           (counter_finish (Some 3%nat)) always_ok true 10 50 0 ["sim"]
           counter_world).
  - lia.
  - intros j Hj. lia.
  - reflexivity.
Defined.

(** The formal driver as it is written: loop index 26 is the first index
    after the first window, so run cycle 27 sees the input invalid with the
    last value of the ramp, [0x1243], still on the data lines. *)
Lemma formal_data_held_witness :
  let l := trace (main_formal nat counter_eval always_ok true ["sim"]
                    counter_world) in
  exists valid data,
    nth_error (audio_view l) (2 * (5 + 26)) = Some (valid, data)
    /\ nth_error (audio_view l) (2 * (5 + 26) + 1) = Some (valid, data)
    /\ nth_error (audio_view l) (2 * (5 + 27)) = Some (0, data)
    /\ nth_error (audio_view l) (2 * (5 + 27) + 1) = Some (0, data).
Proof.
  apply (formal_data_held nat counter_eval always_ok true 5 200 computeInputs
           ["sim"] counter_world 26).
  - lia.
  - reflexivity.
Defined.

(** Loop index 15 is valid and drives [0x1239]. *)
Lemma computeInputs_valid_range_witness :
  computeInputs 15 <> None
  /\ ((0x1234 <= 0x1239 <= 0x1243 \/ 0x5678 <= 0x1239 <= 0x5687)
      /\ 0 <= 0x1239 < 2 ^ 16).
Proof.
  destruct (computeInputs_valid_range 15) as [[_ Hvalid] Hbound].
  split.
  - apply Hvalid. lia.
  - apply Hbound. reflexivity.
Defined.

(** Loop indices 15 and 16, next to each other in the first window. *)
Lemma computeInputs_ramp_witness :
  (16 = 15 + 1 -> 0x123A = 0x1239 + 1)
  /\ (15 < 16 -> 0x1239 < 0x123A)
  /\ (0x1239 = 0x123A -> 15 = 16).
Proof.
  apply (computeInputs_ramp 15 16 0x1239 0x123A); reflexivity.
Defined.

(** Timestamp 409, the last one of the formal driver. *)
Lemma timestamps_fit_int_witness : 0 <= 409 <= 49999 /\ 409 < 2 ^ 31.
Proof.
  apply (timestamps_fit_int nat counter_eval (counter_finish None) always_ok
           true ["sim"] counter_world 409).
  left. unfold main_formal. rewrite formal_dumps. unfold upto.
  apply range_In. lia.
Defined.
